(** * GAMS console error checker: the crawl engine of [check-with-puppeteer.js]

    A shallow embedding of [crawlForErrors]: the scope filter derived from
    the start URL, the three event handlers registered on the page, and the
    queue-driven crawl loop.  The headless browser is an environment that
    answers every navigation with a behaviour; the program state is a record
    with one field per variable that [crawlForErrors] declares. *)

From Stdlib Require Import Ascii String DecimalString.
From stdpp Require Import gmap strings list.

Local Open Scope string_scope.
Local Open Scope list_scope.

(** ** JavaScript string primitives

    A JavaScript string is a sequence of code units; [startsWith] and
    [includes] compare code units one by one, so a sequence of characters
    models them. *)

Module JsString.

(** [s.startsWith(p)] *)
Fixpoint startsWith (s p : string) {struct p} : bool :=
  match p with
  | EmptyString => true
  | String a p' =>
      match s with
      | EmptyString => false
      | String b s' => if Ascii.eqb a b then startsWith s' p' else false
      end
  end.

(** [s.includes(p)] *)
Fixpoint includes (s p : string) : bool :=
  if startsWith s p then true
  else match s with
       | EmptyString => false
       | String _ s' => includes s' p
       end.

(** The rest of [s] after a leading [p], when [s] starts with [p]. *)
Fixpoint strip_prefix (p s : string) {struct p} : option string :=
  match p with
  | EmptyString => Some s
  | String a p' =>
      match s with
      | EmptyString => None
      | String b s' => if Ascii.eqb a b then strip_prefix p' s' else None
      end
  end.

(** [s] is falsy exactly when it is the empty string. *)
Definition truthy (s : string) : bool :=
  match s with
  | EmptyString => false
  | String _ _ => true
  end.

(** [a || b] on strings. *)
Definition or_else (a b : string) : string := if truthy a then a else b.

End JsString.

Import JsString.

(** ** Scope policy (lines 30-43 and 91-102) *)

(** The character class [[^\/\?#]] of the regular expression. *)
Definition token_char (c : ascii) : bool :=
  negb (Ascii.eqb c "/" || Ascii.eqb c "?" || Ascii.eqb c "#")%char.

(** The greedy [[^\/\?#]*] at the start of [s]. *)
Fixpoint take_token (s : string) : string :=
  match s with
  | EmptyString => EmptyString
  | String c s' => if token_char c then String c (take_token s') else EmptyString
  end.

(** [/context:([^\/\?#]+)/] tried at the start of [s]: the captured group. *)
Definition match_here (s : string) : option string :=
  match strip_prefix "context:" s with
  | Some rest =>
      match take_token rest with
      | EmptyString => None
      | tok => Some tok
      end
  | None => None
  end.

(** [startUrl.match(/context:([^\/\?#]+)/)], reduced to group 1: the
    regular expression is tried at each position from the left, and the
    first position where it matches wins. *)
Fixpoint contextMatch (startUrl : string) : option string :=
  match match_here startUrl with
  | Some tok => Some tok
  | None =>
      match startUrl with
      | EmptyString => None
      | String _ s' => contextMatch s'
      end
  end.

(** [const projectId = contextMatch ? contextMatch[1] : null] *)
Definition projectId (startUrl : string) : option string := contextMatch startUrl.

(** The list built by the two [allowedPatterns.push] calls. *)
Definition allowedPatterns (startUrl : string) : list string :=
  match projectId startUrl with
  | Some p => ["context:" +:+ p; "o:" +:+ p]
  | None => []
  end.

(** [allowedPatterns.some(pattern => url.includes(pattern))] *)
Definition some_includes (patterns : list string) (url : string) : bool :=
  existsb (includes url) patterns.

(** [function shouldCrawl(url)], with the two variables it closes over. *)
Definition shouldCrawl (domain : string) (patterns : list string) (url : string) : bool :=
  if negb (startsWith url domain) then false
  else if (0 <? length patterns)%nat then
    if negb (some_includes patterns url) then false else true
  else true.

(** The part of the platform's [URL] class that lines 31-32 use,
    [new URL(u).origin], on the URLs for which it is the plain text
    [scheme://host]: the scheme is [http] or [https] in lower case, [://]
    follows, and the authority, which ends at the first [/], [?], [#] or
    [\], is a host name and nothing else: labels of lower-case letters,
    digits and [-], none empty, separated by [.], the last one beginning
    with a letter (so that the host is not read as a number), and no
    [xn--] in it.  An authority with credentials, a port, upper-case
    letters or any other character is outside this fragment, and so is
    every other scheme.  [None] says that the input is outside the
    fragment, where nothing is said about the constructor; it does not say
    that the constructor throws. *)
Definition authority_char (c : ascii) : bool :=
  negb (Ascii.eqb c "/" || Ascii.eqb c "?" || Ascii.eqb c "#" || Ascii.eqb c "\")%char.

Fixpoint take_authority (s : string) : string :=
  match s with
  | EmptyString => EmptyString
  | String c s' => if authority_char c then String c (take_authority s') else EmptyString
  end.

Definition lower_letter (c : ascii) : bool :=
  (97 <=? N_of_ascii c)%N && (N_of_ascii c <=? 122)%N.

Definition digit (c : ascii) : bool :=
  (48 <=? N_of_ascii c)%N && (N_of_ascii c <=? 57)%N.

(** The labels of a host name, read from the left; [first] holds the first
    character of the label being read, if it has one.  The result says
    whether every character is allowed, no label is empty, and the last
    label begins with a letter. *)
Fixpoint host_labels_ok (first : option ascii) (host : string) : bool :=
  match host with
  | EmptyString =>
      match first with
      | Some c => lower_letter c
      | None => false
      end
  | String c host' =>
      if Ascii.eqb c "."%char then
        match first with
        | Some _ => host_labels_ok None host'
        | None => false
        end
      else if lower_letter c || digit c || Ascii.eqb c "-"%char then
        host_labels_ok (Some (default c first)) host'
      else false
  end.

Definition plain_host (host : string) : bool :=
  host_labels_ok None host && negb (includes host "xn--").

Definition origin_with_scheme (scheme u : string) : option string :=
  match strip_prefix (scheme +:+ "://") u with
  | Some rest =>
      if plain_host (take_authority rest)
      then Some (scheme +:+ "://" +:+ take_authority rest)
      else None
  | None => None
  end.

Definition url_origin (u : string) : option string :=
  match origin_with_scheme "https" u with
  | Some o => Some o
  | None => origin_with_scheme "http" u
  end.

(** ** Data model *)

(** The [status] of a broken link: a number, or the string ['ERROR']. *)
Inductive Status : Type :=
  | HttpStatus (code : N)
  | StatusError.

(** An element of [toVisit]: [{ url, foundOn }]. *)
Record FrontierEntry : Type := mkEntry {
  fe_url : string;
  fe_foundOn : string }.

(** An element of [errorsFound]: [{ url, error, timestamp }]. *)
Record ConsoleError : Type := mkConsoleError {
  ce_url : string;
  ce_error : string;
  ce_timestamp : string }.

(** An element of [resourceErrors]: [{ resourceUrl, pageUrl, status, timestamp }]. *)
Record ResourceError : Type := mkResourceError {
  re_resourceUrl : string;
  re_pageUrl : string;
  re_status : N;
  re_timestamp : string }.

(** An element of [brokenLinks]: [{ url, foundOn, status, error }]. *)
Record BrokenLink : Type := mkBrokenLink {
  bl_url : string;
  bl_foundOn : string;
  bl_status : Status;
  bl_error : string }.

(** What the crawler asks of the browser, in the order it asks. *)
Inductive Effect : Type :=
  | Goto (url : string) (timeout : N)   (* page.goto(url, {networkidle0, timeout}) *)
  | Sleep (ms : N)                      (* setTimeout(resolve, ms) *)
  | Evaluate.                           (* page.evaluate(...) *)

(** The variables of [crawlForErrors] (lines 22-28), followed by three
    histories that the program does not read: every request made to the
    browser, every entry ever placed in [toVisit], and every entry taken
    out of it, each in order. *)
Record Config : Type := mkConfig {
  visited : list string;                (* a Set, in insertion order *)
  errorsFound : list ConsoleError;
  toVisit : list FrontierEntry;
  urlSources : gmap string string;      (* a Map *)
  brokenLinks : list BrokenLink;
  resourceErrors : list ResourceError;
  currentPageUrl : string;
  effects : list Effect;
  pushed : list FrontierEntry;
  popped : list FrontierEntry }.

(** [set.has(x)] and [set.add(x)] on an insertion-ordered Set. *)
Definition Set_has (s : list string) (x : string) : bool := bool_decide (x ∈ s).

Definition Set_add (s : list string) (x : string) : list string :=
  if Set_has s x then s else s ++ [x].

(** ** The browser

    An event reaches its handler while the crawler is suspended in an
    [await].  A delivery carries the event together with what the handler
    reads from the outside when it runs: the clock and [page.url()]. *)
Inductive PageEvent : Type :=
  | ConsoleMsg (type text : string)      (* msg.type(), msg.text() *)
  | PageErrorEv (message : string)       (* error.message *)
  | ResponseEv (status : N) (url : string).  (* response.status(), response.url() *)

Record Delivery : Type := mkDelivery {
  dl_event : PageEvent;
  dl_now : string;          (* new Date().toISOString() *)
  dl_page_url : string }.   (* page.url() *)

(** A settled promise. *)
Inductive Settled (A : Type) : Type :=
  | Fulfilled (a : A)
  | Rejected (message : string).
Arguments Fulfilled {A} a.
Arguments Rejected {A} message.

(** The browser answers each request from the requests made so far (the
    last one being the request it answers): the events it delivers before
    the promise settles, and how the promise settles.  [page.goto]
    resolves to a response, of which the crawler reads the status, or to
    [null]; [page.evaluate] is given the [href] of every anchor in document
    order, which the function passed to it then filters. *)
Record Browser : Type := mkBrowser {
  goto_answer : list Effect -> list Delivery * Settled (option N);
  sleep_answer : list Effect -> list Delivery;
  evaluate_answer : list Effect -> list Delivery * Settled (list string) }.

(** ** Updates of the variables *)

Definition push_errorsFound (r : ConsoleError) (c : Config) : Config :=
  mkConfig (visited c) (errorsFound c ++ [r]) (toVisit c) (urlSources c)
    (brokenLinks c) (resourceErrors c) (currentPageUrl c)
    (effects c) (pushed c) (popped c).

Definition push_resourceErrors (r : ResourceError) (c : Config) : Config :=
  mkConfig (visited c) (errorsFound c) (toVisit c) (urlSources c)
    (brokenLinks c) (resourceErrors c ++ [r]) (currentPageUrl c)
    (effects c) (pushed c) (popped c).

Definition push_brokenLinks (r : BrokenLink) (c : Config) : Config :=
  mkConfig (visited c) (errorsFound c) (toVisit c) (urlSources c)
    (brokenLinks c ++ [r]) (resourceErrors c) (currentPageUrl c)
    (effects c) (pushed c) (popped c).

(** [toVisit.push(e)] *)
Definition push_toVisit (e : FrontierEntry) (c : Config) : Config :=
  mkConfig (visited c) (errorsFound c) (toVisit c ++ [e]) (urlSources c)
    (brokenLinks c) (resourceErrors c) (currentPageUrl c)
    (effects c) (pushed c ++ [e]) (popped c).

(** [toVisit.shift()] on a queue whose head is [e] and whose tail is [q]. *)
Definition shift_toVisit (e : FrontierEntry) (q : list FrontierEntry) (c : Config) : Config :=
  mkConfig (visited c) (errorsFound c) q (urlSources c)
    (brokenLinks c) (resourceErrors c) (currentPageUrl c)
    (effects c) (pushed c) (popped c ++ [e]).

(** Lines 113-115. *)
Definition mark_visited (url foundOn : string) (c : Config) : Config :=
  mkConfig (Set_add (visited c) url) (errorsFound c) (toVisit c)
    (<[url := foundOn]> (urlSources c))
    (brokenLinks c) (resourceErrors c) url
    (effects c) (pushed c) (popped c).

Definition record_effect (f : Effect) (c : Config) : Config :=
  mkConfig (visited c) (errorsFound c) (toVisit c) (urlSources c)
    (brokenLinks c) (resourceErrors c) (currentPageUrl c)
    (effects c ++ [f]) (pushed c) (popped c).

(** ** The crawler as a computation over [Config] that may throw *)

Definition Crawl (A : Type) : Type := Config -> Settled A * Config.

Definition ret {A : Type} (a : A) : Crawl A := fun c => (Fulfilled a, c).

Definition throw {A : Type} (message : string) : Crawl A := fun c => (Rejected message, c).

Definition bind {A B : Type} (m : Crawl A) (k : A -> Crawl B) : Crawl B :=
  fun c =>
    match m c with
    | (Fulfilled a, c') => k a c'
    | (Rejected message, c') => (Rejected message, c')
    end.

(** [try { body } catch (error) { handler(error.message) }] *)
Definition try_catch (body : Crawl unit) (handler : string -> Crawl unit) : Crawl unit :=
  fun c =>
    match body c with
    | (Fulfilled tt, c') => (Fulfilled tt, c')
    | (Rejected message, c') => handler message c'
    end.

Definition update (f : Config -> Config) : Crawl unit := fun c => (Fulfilled tt, f c).

Definition read {A : Type} (f : Config -> A) : Crawl A := fun c => (Fulfilled (f c), c).

Definition settle {A : Type} (r : Settled A) : Crawl A := fun c => (r, c).

Notation "x <- m ;; k" := (bind m (fun x => k))
  (at level 100, m at next level, right associativity).
Notation "m ;;; k" := (bind m (fun _ => k))
  (at level 100, right associativity).

(** [for (const x of xs) body(x)] *)
Fixpoint for_each {A : Type} (xs : list A) (body : A -> Crawl unit) : Crawl unit :=
  match xs with
  | [] => ret tt
  | x :: xs' => body x ;;; for_each xs' body
  end.

(** [`HTTP error ${status}`] *)
Definition http_error_text (status : N) : string :=
  "HTTP error " +:+ NilZero.string_of_uint (N.to_uint status).

(** The message of the [TypeError] raised by [response.status()] when
    [page.goto] resolved to [null]. *)
Definition null_status_message : string :=
  "Cannot read properties of null (reading 'status')".

(** The function run in the page by [page.evaluate] (lines 150-152),
    applied to the [href] of the anchors. *)
Definition keep_href (href : string) : bool :=
  truthy href && negb (includes href "#") && negb (includes href "javascript:").

Definition extract_links (hrefs : list string) : list string := filter keep_href hrefs.

Section Crawler.

(** [domain] and [allowedPatterns], fixed before the handlers are
    registered, and the browser the crawl runs against. *)
Variable domain : string.
Variable patterns : list string.
Variable browser : Browser.

(** *** Event handlers (lines 47-88) *)

(** [page.on('console', ...)] *)
Definition on_console (type text now page_url : string) (c : Config) : Config :=
  if String.eqb type "error" then
    push_errorsFound
      (mkConsoleError (or_else (currentPageUrl c) page_url) text now) c
  else c.

(** [page.on('pageerror', ...)] *)
Definition on_pageerror (message now page_url : string) (c : Config) : Config :=
  push_errorsFound
    (mkConsoleError (or_else (currentPageUrl c) page_url)
       ("PAGE ERROR: " +:+ message) now) c.

(** [page.on('response', ...)] *)
Definition on_response (status : N) (resourceUrl now : string) (c : Config) : Config :=
  if (status =? 404)%N && startsWith resourceUrl domain then
    let matchesPattern :=
      (length patterns =? 0)%nat || some_includes patterns resourceUrl in
    if matchesPattern then
      push_resourceErrors (mkResourceError resourceUrl (currentPageUrl c) 404 now) c
    else c
  else c.

Definition deliver (d : Delivery) (c : Config) : Config :=
  match dl_event d with
  | ConsoleMsg type text => on_console type text (dl_now d) (dl_page_url d) c
  | PageErrorEv message => on_pageerror message (dl_now d) (dl_page_url d) c
  | ResponseEv status url => on_response status url (dl_now d) c
  end.

(** The handlers run, one delivery after the other, while an [await] is
    pending. *)
Definition deliver_all (ds : list Delivery) (c : Config) : Config :=
  foldl (fun c d => deliver d c) c ds.

(** *** The awaited calls *)

(** [await page.goto(url, { waitUntil: 'networkidle0', timeout: 30000 })] *)
Definition page_goto (url : string) : Crawl (option N) :=
  update (record_effect (Goto url 30000)) ;;;
  answer <- read (fun c => goto_answer browser (effects c)) ;;
  update (deliver_all (fst answer)) ;;;
  settle (snd answer).

(** [response.status()] *)
Definition response_status (response : option N) : Crawl N :=
  match response with
  | Some status => ret status
  | None => throw null_status_message
  end.

(** [await new Promise(resolve => setTimeout(resolve, ms))] *)
Definition sleep (ms : N) : Crawl unit :=
  update (record_effect (Sleep ms)) ;;;
  ds <- read (fun c => sleep_answer browser (effects c)) ;;
  update (deliver_all ds).

(** [await page.evaluate(...)] *)
Definition page_evaluate : Crawl (list string) :=
  update (record_effect Evaluate) ;;;
  answer <- read (fun c => evaluate_answer browser (effects c)) ;;
  update (deliver_all (fst answer)) ;;;
  hrefs <- settle (snd answer) ;;
  ret (extract_links hrefs).

(** *** The loop (lines 104-172) *)

(** The body of the [for] loop of lines 156-160. *)
Definition enqueue_link (url link : string) : Crawl unit :=
  isVisited <- read (fun c => Set_has (visited c) link) ;;
  if negb isVisited && shouldCrawl domain patterns link then
    update (push_toVisit (mkEntry link url))
  else ret tt.

(** The body of the [try] block. *)
Definition try_body (url foundOn : string) : Crawl unit :=
  response <- page_goto url ;;
  status <- response_status response ;;
  (if (status =? 404)%N then
     update (push_brokenLinks (mkBrokenLink url foundOn (HttpStatus 404) "Page not found"))
   else if (400 <=? status)%N then
     update (push_brokenLinks
               (mkBrokenLink url foundOn (HttpStatus status) (http_error_text status)))
   else ret tt) ;;;
  sleep 1000 ;;;
  if (status <? 400)%N then
    links <- page_evaluate ;;
    for_each links (enqueue_link url)
  else ret tt.

(** The [catch] block. *)
Definition catch_body (url foundOn message : string) : Crawl unit :=
  update (push_brokenLinks (mkBrokenLink url foundOn StatusError message)).

(** What one iteration does with an entry that passed the test of line 109. *)
Definition process (url foundOn : string) : Crawl unit :=
  update (mark_visited url foundOn) ;;;
  try_catch (try_body url foundOn) (catch_body url foundOn).

(** One iteration of the [while] loop; [None] when [toVisit] is empty and
    the loop is left. *)
Definition iteration (c : Config) : option Config :=
  match toVisit c with
  | [] => None
  | e :: q =>
      let c1 := shift_toVisit e q c in
      if Set_has (visited c1) (fe_url e) || negb (shouldCrawl domain patterns (fe_url e))
      then Some c1
      else Some (snd (process (fe_url e) (fe_foundOn e) c1))
  end.

(** The state before the loop (lines 22-28). *)
Definition initial (startUrl : string) : Config :=
  mkConfig [] [] [mkEntry startUrl "START"] ∅ [] [] EmptyString
    [] [mkEntry startUrl "START"] [].

(** The loop, for at most [fuel] iterations: the final state, or [None]
    when the queue is still not empty. *)
Fixpoint loop (fuel : nat) (c : Config) : option Config :=
  match iteration c with
  | None => Some c
  | Some c' =>
      match fuel with
      | O => None
      | S fuel' => loop fuel' c'
      end
  end.

(** The states the loop passes through at the top of an iteration. *)
Inductive reachable (startUrl : string) : Config -> Prop :=
  | reachable_initial : reachable startUrl (initial startUrl)
  | reachable_iteration c c' :
      reachable startUrl c -> iteration c = Some c' -> reachable startUrl c'.

End Crawler.

(** The object returned at lines 175-181. *)
Record Results : Type := mkResults {
  res_visited : list string;
  res_errors : list ConsoleError;
  res_urlSources : gmap string string;
  res_brokenLinks : list BrokenLink;
  res_resourceErrors : list ResourceError }.

Definition results_of (c : Config) : Results :=
  mkResults (visited c) (errorsFound c) (urlSources c) (brokenLinks c) (resourceErrors c).

(** ** Derived views used in the statements *)

(** The URLs navigated to, in order. *)
Fixpoint gotos (fx : list Effect) : list string :=
  match fx with
  | [] => []
  | Goto url _ :: fx' => url :: gotos fx'
  | _ :: fx' => gotos fx'
  end.

(** The [foundOn] of the earliest entry for [u] in a sequence of entries. *)
Definition first_discovery (log : list FrontierEntry) (u : string) : option string :=
  fe_foundOn <$> find (fun e => bool_decide (fe_url e = u)) log.

(** [n] iterations of the loop from [c], when the queue lasts that long. *)
Fixpoint iterate (domain : string) (patterns : list string) (browser : Browser)
    (n : nat) (c : Config) : option Config :=
  match n with
  | O => Some c
  | S n' =>
      match iteration domain patterns browser c with
      | Some c' => iterate domain patterns browser n' c'
      | None => None
      end
  end.

(** ** A browser that serves a fixed site

    Each URL has one page; the page decides how the navigation settles,
    which events arrive while it loads, and what the anchors are. *)
Record Page : Type := mkPage {
  page_goto_result : Settled (option N);
  page_events : list Delivery;
  page_hrefs : Settled (list string) }.

Fixpoint last_goto (fx : list Effect) (current : string) : string :=
  match fx with
  | [] => current
  | Goto url _ :: fx' => last_goto fx' url
  | _ :: fx' => last_goto fx' current
  end.

Definition serve (site : string -> Page) : Browser :=
  mkBrowser
    (fun fx => let p := site (last_goto fx EmptyString) in (page_events p, page_goto_result p))
    (fun _ => [])
    (fun fx => ([], page_hrefs (site (last_goto fx EmptyString)))).

Definition ok_page (hrefs : list string) : Page :=
  mkPage (Fulfilled (Some 200%N)) [] (Fulfilled hrefs).

Definition status_page (status : N) : Page :=
  mkPage (Fulfilled (Some status)) [] (Fulfilled []).

(** A project of four pages: the context page links to two object pages
    and to another site, both object pages link to a third one, which is
    missing. *)
Definition demo_seed : string := "https://x.test/context:proj".
Definition demo_a : string := "https://x.test/o:proj/a".
Definition demo_b : string := "https://x.test/o:proj/b".
Definition demo_c : string := "https://x.test/o:proj/c".

Definition demo_site (url : string) : Page :=
  if String.eqb url demo_seed then ok_page [demo_a; demo_b; "https://other.test/page"]
  else if String.eqb url demo_a then ok_page [demo_c; demo_seed]
  else if String.eqb url demo_b then ok_page [demo_c]
  else status_page 404.

Definition demo_domain : string := "https://x.test".
Definition demo_patterns : list string := allowedPatterns demo_seed.

(** ** The scope policy in the words of the specification *)

Fixpoint string_forallb (f : ascii -> bool) (s : string) : bool :=
  match s with
  | EmptyString => true
  | String c s' => f c && string_forallb f s'
  end.

(** Nothing follows, or what follows starts with one of [/], [?], [#]. *)
Definition token_ends (rest : string) : Prop :=
  match rest with
  | EmptyString => True
  | String d _ => token_char d = false
  end.

(** [startUrl] reads [context:tok] from position [i] on, where [tok] is a
    run of one or more characters other than [/], [?], [#] that cannot be
    extended. *)
Definition token_at (startUrl : string) (i : nat) (tok : string) : Prop :=
  exists pre rest,
    startUrl = pre +:+ "context:" +:+ tok +:+ rest /\
    String.length pre = i /\
    tok <> EmptyString /\
    string_forallb token_char tok = true /\
    token_ends rest.

(** [tok] is the token of the leftmost such position. *)
Definition leftmost_token (startUrl tok : string) : Prop :=
  exists i, token_at startUrl i tok /\
    forall j tok', token_at startUrl j tok' -> i <= j.

Definition no_token (startUrl : string) : Prop :=
  forall i tok, ~ token_at startUrl i tok.

(** What follows the first occurrence of [context:], if there is one. *)
Fixpoint after_first_occurrence (s : string) : option string :=
  match strip_prefix "context:" s with
  | Some rest => Some rest
  | None =>
      match s with
      | EmptyString => None
      | String _ s' => after_first_occurrence s'
      end
  end.

(** The run of characters other than [/], [?], [#] that follows the first
    occurrence of [context:]. *)
Definition first_occurrence_token (s : string) : option string :=
  take_token <$> after_first_occurrence s.

(** The patterns built from that run, none when it is empty. *)
Definition first_occurrence_patterns (s : string) : list string :=
  match first_occurrence_token s with
  | Some (String c tok) => ["context:" +:+ String c tok; "o:" +:+ String c tok]
  | _ => []
  end.

(** ** What a visit is answered with *)

Section Answers.

Variable domain : string.
Variable patterns : list string.
Variable browser : Browser.

(** How the navigation of the visit that starts in [c] settles. *)
Definition navigation (url : string) (c : Config) : Settled (option N) :=
  snd (goto_answer browser (effects c ++ [Goto url 30000%N])).

(** How the link extraction of that visit settles, if it is reached. *)
Definition extraction (url : string) (c : Config) : Settled (list string) :=
  snd (evaluate_answer browser
         (effects c ++ [Goto url 30000%N; Sleep 1000%N; Evaluate])).

(** The entries that the [for] loop of lines 156-160 appends to the queue
    when the set of visited URLs is [seen]. *)
Fixpoint new_entries (seen : list string) (url : string) (links : list string)
  : list FrontierEntry :=
  match links with
  | [] => []
  | link :: links' =>
      if negb (Set_has seen link) && shouldCrawl domain patterns link
      then mkEntry link url :: new_entries seen url links'
      else new_entries seen url links'
  end.

End Answers.

(** A page that loads with status 200 and then navigates away by itself,
    so that [page.evaluate] is rejected. *)
Definition redirecting_page : Page :=
  mkPage (Fulfilled (Some 200%N)) [] (Rejected "Execution context was destroyed").

(** The state in which the crawl of the project ends, after five
    iterations. *)
Definition demo_final : Config :=
  default (initial demo_seed)
    (iterate demo_domain demo_patterns (serve demo_site) 5 (initial demo_seed)).

(** ** Invariants of the loop *)

(** Two states that differ in [errorsFound] and [resourceErrors] at most. *)
Definition same_crawl (c c' : Config) : Prop :=
  visited c' = visited c /\ toVisit c' = toVisit c /\
  urlSources c' = urlSources c /\ brokenLinks c' = brokenLinks c /\
  currentPageUrl c' = currentPageUrl c /\ effects c' = effects c /\
  pushed c' = pushed c /\ popped c' = popped c.

(** What holds at the top of every iteration of a crawl started at
    [startUrl] with the scope test [inScope]. *)
Record crawl_inv (inScope : string -> bool) (startUrl : string) (c : Config) : Prop :=
  mkCrawlInv {
  inv_fifo : pushed c = popped c ++ toVisit c;
  inv_pushed : exists rest,
      pushed c = mkEntry startUrl "START" :: rest /\
      forall e, e ∈ rest -> inScope (fe_url e) = true /\ fe_foundOn e ∈ visited c;
  inv_popped : forall e, e ∈ popped c -> inScope (fe_url e) = true -> fe_url e ∈ visited c;
  inv_nodup : NoDup (visited c);
  inv_gotos : gotos (effects c) = visited c;
  inv_broken : (bl_url <$> brokenLinks c) `sublist_of` visited c;
  inv_scope : forall u, u ∈ visited c -> inScope u = true;
  inv_sources : forall u, u ∈ visited c ->
      is_Some (urlSources c !! u) /\ urlSources c !! u = first_discovery (pushed c) u;
  inv_keys : forall u, is_Some (urlSources c !! u) -> u ∈ visited c;
  inv_order : forall l1 A l2 B,
      visited c = l1 ++ A :: l2 -> urlSources c !! A = Some B ->
      (A = startUrl /\ B = "START") \/ B ∈ l1 }.

(** A page on which a script fails twice and an image is missing. *)
Definition noisy_page : Page :=
  mkPage (Fulfilled (Some 200%N))
    [mkDelivery (ConsoleMsg "error" "f is not defined") "t1" demo_seed;
     mkDelivery (ConsoleMsg "log" "loaded") "t2" demo_seed;
     mkDelivery (PageErrorEv "boom") "t3" demo_seed;
     mkDelivery (ResponseEv 404 "https://x.test/o:proj/logo.png") "t4" demo_seed]
    (Fulfilled []).

(** The state after the visit of the start URL when the site consists
    of that page only; and the state after the first iteration of the
    crawl of the project. *)
Definition noisy_final : Config :=
  default (initial demo_seed)
    (iterate demo_domain demo_patterns (serve (fun _ => noisy_page)) 1 (initial demo_seed)).

Definition demo_first : Config :=
  default (initial demo_seed)
    (iterate demo_domain demo_patterns (serve demo_site) 1 (initial demo_seed)).

(** A site whose context page links to a page of another origin, the
    name of which begins with the name of the site. *)
Definition other_origin_url : string := "https://x.test.evil.example/context:proj".

Definition linking_out_site (url : string) : Page :=
  if String.eqb url demo_seed then ok_page [other_origin_url] else ok_page [].

(** ** Records and what they are records of *)

(** Between [c0] and [c] the handlers appended records for the page [url]
    only: console records under [url] (when [url] is not the empty string,
    which the handlers take for no page at all), and resource records for
    a 404 response with an accepted URL, with [url] as their page. *)
Definition attributed (inScope : string -> bool) (url : string) (c0 c : Config) : Prop :=
  currentPageUrl c = url /\
  exists es rs,
    errorsFound c = errorsFound c0 ++ es /\
    resourceErrors c = resourceErrors c0 ++ rs /\
    Forall (fun r => url <> EmptyString -> ce_url r = url) es /\
    Forall (fun r => re_pageUrl r = url /\ re_status r = 404%N /\
                     inScope (re_resourceUrl r) = true) rs.

(** A record of [brokenLinks] for the entry [url], [foundOn]: its status,
    when a number, is 400 or more. *)
Definition broken_record_of (url foundOn : string) (r : BrokenLink) : Prop :=
  bl_url r = url /\ bl_foundOn r = foundOn /\
  forall n, bl_status r = HttpStatus n -> (400 <= n)%N.

(** What the three result lists hold at the top of every iteration. *)
Record records_inv (inScope : string -> bool) (startUrl : string) (c : Config) : Prop :=
  mkRecordsInv {
  rinv_errors :
    EmptyString ∉ visited c -> Forall (fun r => ce_url r ∈ visited c) (errorsFound c);
  rinv_resources :
    Forall (fun r => re_pageUrl r ∈ visited c /\ re_status r = 404%N /\
                     inScope (re_resourceUrl r) = true) (resourceErrors c);
  rinv_broken :
    Forall (fun r => bl_url r ∈ visited c /\
                     urlSources c !! bl_url r = Some (bl_foundOn r) /\
                     forall n, bl_status r = HttpStatus n -> (400 <= n)%N)
      (brokenLinks c);
  rinv_links : forall e, e ∈ tail (pushed c) ->
      keep_href (fe_url e) = true /\ fe_foundOn e ∉ bl_url <$> brokenLinks c;
  rinv_first :
    (visited c = [] /\ pushed c = [mkEntry startUrl "START"]) \/
    (exists l, visited c = startUrl :: l) }.

(** ** The report (lines 184-269) *)

(** [new Date().toISOString().replace(/[:.]/g, '-')], on the text of the
    date. *)
Fixpoint file_stamp (iso : string) : string :=
  match iso with
  | EmptyString => EmptyString
  | String c s =>
      String (if (Ascii.eqb c ":" || Ascii.eqb c ".")%char then "-"%char else c)
        (file_stamp s)
  end.

(** [`report-${timestamp}.json`] and [`report-${timestamp}.txt`] *)
Definition reportFileName (timestamp : string) : string :=
  "report-" +:+ timestamp +:+ ".json".

Definition txtFileName (timestamp : string) : string :=
  "report-" +:+ timestamp +:+ ".txt".

(** The [summary] of the report object. *)
Record Summary : Type := mkSummary {
  pagesChecked : nat;
  consoleErrorsFound : nat;
  brokenLinksFound : nat;
  resource404sFound : nat }.

(** The [report] object of lines 196-210. *)
Record Report : Type := mkReport {
  rp_startUrl : string;
  rp_timestamp : string;
  rp_summary : Summary;
  rp_visitedPages : list string;
  rp_consoleErrors : list ConsoleError;
  rp_brokenLinks : list BrokenLink;
  rp_resource404s : list ResourceError;
  rp_urlSources : gmap string string }.

Definition make_report (results : Results) (startUrl now : string) : Report :=
  mkReport startUrl now
    (mkSummary (length (res_visited results)) (length (res_errors results))
       (length (res_brokenLinks results)) (length (res_resourceErrors results)))
    (res_visited results) (res_errors results) (res_brokenLinks results)
    (res_resourceErrors results) (res_urlSources results).

(** [results.urlSources[url] || 'UNKNOWN'] (line 229), for a [url] that is
    a key of the map or names no property at all. *)
Definition report_foundOn (results : Results) (url : string) : string :=
  match res_urlSources results !! url with
  | Some foundOn => or_else foundOn "UNKNOWN"
  | None => "UNKNOWN"
  end.

(** A number in a template literal. *)
Definition decimal (n : nat) : string := NilZero.string_of_uint (Nat.to_uint n).

Definition newline : string := String (Ascii.ascii_of_nat 10) EmptyString.

(** What the callback of [results.visited.forEach] (lines 228-232)
    appends for the page [url] at index [i]. *)
Definition visited_page_text (results : Results) (i : nat) (url : string) : string :=
  decimal (i + 1) +:+ ". " +:+ url +:+ newline +:+
  "   Found on: " +:+ report_foundOn results url +:+ newline.

(** ** Sites with finitely many pages *)

(** Every page of the site lists at most [width] links that survive the
    filter of [page.evaluate], and those of them that [inScope] accepts
    are among [pages]. *)
Definition finite_site (inScope : string -> bool) (browser : Browser)
    (pages : list string) (width : nat) : Prop :=
  forall fx hrefs,
    snd (evaluate_answer browser fx) = Fulfilled hrefs ->
    length (extract_links hrefs) <= width /\
    forall link, link ∈ extract_links hrefs -> inScope link = true -> link ∈ pages.

(** * Properties *)

(** ** Strings *)

#[local] Arguments String.append !s1 s2 : simpl nomatch.

Lemma startsWith_refl s : startsWith s s = true.
Proof. induction s as [|a s IH]; simpl; [done|]. by rewrite Ascii.eqb_refl. Qed.

Lemma startsWith_app s p : startsWith (p +:+ s) p = true.
Proof. induction p as [|a p IH]; simpl; [done|]. by rewrite Ascii.eqb_refl. Qed.

Lemma strip_prefix_app p r : strip_prefix p (p +:+ r) = Some r.
Proof. induction p as [|a p IH]; simpl; [done|]. by rewrite Ascii.eqb_refl. Qed.

Lemma strip_prefix_Some p s r : strip_prefix p s = Some r -> s = p +:+ r.
Proof.
  revert s. induction p as [|a p IH]; intros s; simpl.
  - by intros [= ->].
  - destruct s as [|b s]; [done|].
    destruct (Ascii.eqb_spec a b) as [->|]; [|done].
    intros H. by rewrite (IH _ H).
Qed.

(** ** Scope policy *)

Lemma take_token_all s : string_forallb token_char (take_token s) = true.
Proof.
  induction s as [|c s IH]; simpl; [done|].
  destruct (token_char c) eqn:E; simpl; [|done]. by rewrite E.
Qed.

Lemma take_token_split s :
  exists rest, s = take_token s +:+ rest /\ token_ends rest.
Proof.
  induction s as [|c s [rest [IH1 IH2]]]; simpl.
  - by exists EmptyString.
  - destruct (token_char c) eqn:E.
    + exists rest. simpl. split; [congruence|done].
    + exists (String c s). by simpl.
Qed.

Lemma take_token_app tok rest :
  string_forallb token_char tok = true -> token_ends rest ->
  take_token (tok +:+ rest) = tok.
Proof.
  induction tok as [|c tok IH]; simpl.
  - intros _. destruct rest as [|d rest]; simpl; [done|]. by intros ->.
  - intros [Hc Htok]%andb_prop Hrest. rewrite Hc. by rewrite IH.
Qed.

Lemma match_here_Some s tok : match_here s = Some tok -> token_at s 0 tok.
Proof.
  unfold match_here. destruct (strip_prefix "context:" s) as [r|] eqn:E; [|done].
  apply strip_prefix_Some in E.
  destruct (take_token_split r) as [rest [Hr Hends]].
  pose proof (take_token_all r) as Hall.
  destruct (take_token r) as [|c t] eqn:Et; [done|].
  intros [= <-]. exists EmptyString, rest. repeat split; try done.
  rewrite E. simpl. by rewrite Hr.
Qed.

Lemma match_here_None s tok : match_here s = None -> ~ token_at s 0 tok.
Proof.
  intros Hnone (pre & rest & Hs & Hlen & Hne & Hall & Hends).
  destruct pre; [|done]. simpl in Hs. subst s.
  unfold match_here in Hnone. simpl in Hnone.
  rewrite take_token_app in Hnone by done.
  by destruct tok.
Qed.

Lemma token_at_shift c s i tok : token_at (String c s) (S i) tok <-> token_at s i tok.
Proof.
  split.
  - intros (pre & rest & Hs & Hlen & H).
    destruct pre as [|a pre]; [done|]. simpl in Hs, Hlen.
    injection Hs as -> Hs. exists pre, rest. split; [done|]. split; [lia|done].
  - intros (pre & rest & Hs & Hlen & H).
    exists (String c pre), rest. simpl. split; [by rewrite Hs|]. split; [lia|done].
Qed.

Lemma token_at_empty i tok : ~ token_at EmptyString i tok.
Proof. intros (pre & rest & Hs & _). by destruct pre. Qed.

Lemma contextMatch_spec s :
  match contextMatch s with
  | Some tok => leftmost_token s tok
  | None => no_token s
  end.
Proof.
  induction s as [|c s IH]; simpl.
  - intros i tok. apply token_at_empty.
  - destruct (match_here (String c s)) as [tok|] eqn:E.
    + exists 0. split; [by apply match_here_Some|]. intros; lia.
    + destruct (contextMatch s) as [tok|].
      * destruct IH as (i & Hat & Hmin). exists (S i). split.
        { by apply token_at_shift. }
        intros [|j] tok' Hj.
        { by apply match_here_None in Hj. }
        apply token_at_shift in Hj. apply Hmin in Hj. lia.
      * intros [|i] tok Hi.
        { by apply match_here_None in Hi. }
        apply token_at_shift in Hi. by apply IH in Hi.
Qed.

Lemma shouldCrawl_true domain patterns url :
  shouldCrawl domain patterns url = true <->
  startsWith url domain = true /\
  (patterns = [] \/ exists p, p ∈ patterns /\ includes url p = true).
Proof.
  unfold shouldCrawl, some_includes.
  destruct (startsWith url domain); simpl; [|intuition discriminate].
  destruct patterns as [|p ps]; simpl; [intuition|].
  destruct (includes url p || existsb (includes url) ps) eqn:E; simpl.
  - split; [|done]. intros _. split; [done|]. right.
    apply orb_prop in E as [E|E].
    + exists p. split; [left|done].
    + apply existsb_exists in E as (q & Hq & E). exists q. split; [|done].
      right. by apply list_elem_of_In.
  - split; [done|]. intros [_ [?|(q & Hq & Hinc)]]; [done|].
    apply orb_false_elim in E as [E1 E2].
    apply elem_of_cons in Hq as [->|Hq]; [congruence|].
    assert (existsb (includes url) ps = true); [|congruence].
    apply existsb_exists. exists q. split; [by apply list_elem_of_In|done].
Qed.

(** C1. With the start URL [https://x.test/context:proj] the crawl's origin
    is [https://x.test]; the URL [https://x.test.evil.example/context:proj]
    has another origin, and [shouldCrawl] accepts it all the same, because
    it compares a prefix of the text of the URL with the origin. *)
Theorem shouldCrawl_accepts_other_origin :
  url_origin demo_seed = Some demo_domain /\
  url_origin "https://x.test.evil.example/context:proj"
    = Some "https://x.test.evil.example" /\
  shouldCrawl demo_domain (allowedPatterns demo_seed)
    "https://x.test.evil.example/context:proj" = true.
Proof. repeat split. Qed.

(** C9, as the code has it.  The patterns are built from the leftmost
    occurrence of [context:] that is followed by at least one character
    other than [/], [?], [#], and from the longest run of such characters
    there; when no occurrence of [context:] is followed by such a
    character there are no patterns. *)
Theorem allowedPatterns_leftmost_token startUrl :
  (exists tok, leftmost_token startUrl tok /\
     allowedPatterns startUrl = ["context:" +:+ tok; "o:" +:+ tok]) \/
  (no_token startUrl /\ allowedPatterns startUrl = []).
Proof.
  pose proof (contextMatch_spec startUrl) as H.
  unfold allowedPatterns, projectId.
  destruct (contextMatch startUrl) as [tok|]; [left; by exists tok|by right].
Qed.

(** C9, as stated, fails.  In [https://x.test/context:/context:abc] the
    first occurrence of [context:] is followed by [/], so the run after it
    is empty; the patterns are neither empty nor built from that run, but
    come from the second occurrence. *)
Lemma allowedPatterns_not_first_occurrence :
  first_occurrence_token "https://x.test/context:/context:abc" = Some EmptyString /\
  allowedPatterns "https://x.test/context:/context:abc" = ["context:abc"; "o:abc"] /\
  allowedPatterns "https://x.test/context:/context:abc"
    <> first_occurrence_patterns "https://x.test/context:/context:abc" /\
  allowedPatterns "https://x.test/context:/context:abc" <> ["context:"; "o:"].
Proof. repeat split; done. Qed.

(** ** Event handlers *)

Section Handlers.

Variable domain : string.
Variable patterns : list string.

Lemma deliver_same d c : same_crawl c (deliver domain patterns d c).
Proof.
  destruct d as [[type text|message|status url] now page_url];
    unfold deliver, on_console, on_pageerror, on_response; simpl.
  - by destruct (String.eqb type "error").
  - done.
  - destruct ((status =? 404)%N && startsWith url domain); [|done].
    by destruct ((length patterns =? 0)%nat || some_includes patterns url).
Qed.

Lemma deliver_all_same ds c : same_crawl c (deliver_all domain patterns ds c).
Proof.
  revert c. induction ds as [|d ds IH]; intros c; simpl; [done|].
  destruct (IH (deliver domain patterns d c)) as (?&?&?&?&?&?&?&?).
  destruct (deliver_same d c) as (?&?&?&?&?&?&?&?).
  repeat split; congruence.
Qed.

Lemma deliver_all_visited ds c : visited (deliver_all domain patterns ds c) = visited c.
Proof. apply deliver_all_same. Qed.
Lemma deliver_all_toVisit ds c : toVisit (deliver_all domain patterns ds c) = toVisit c.
Proof. apply deliver_all_same. Qed.
Lemma deliver_all_urlSources ds c : urlSources (deliver_all domain patterns ds c) = urlSources c.
Proof. apply deliver_all_same. Qed.
Lemma deliver_all_brokenLinks ds c : brokenLinks (deliver_all domain patterns ds c) = brokenLinks c.
Proof. apply deliver_all_same. Qed.
Lemma deliver_all_currentPageUrl ds c :
  currentPageUrl (deliver_all domain patterns ds c) = currentPageUrl c.
Proof. apply deliver_all_same. Qed.
Lemma deliver_all_effects ds c : effects (deliver_all domain patterns ds c) = effects c.
Proof. apply deliver_all_same. Qed.
Lemma deliver_all_pushed ds c : pushed (deliver_all domain patterns ds c) = pushed c.
Proof. apply deliver_all_same. Qed.
Lemma deliver_all_popped ds c : popped (deliver_all domain patterns ds c) = popped c.
Proof. apply deliver_all_same. Qed.

Lemma on_response_resourceErrors status resourceUrl now c :
  resourceErrors (on_response domain patterns status resourceUrl now c)
  = resourceErrors c ++
    (if (status =? 404)%N && startsWith resourceUrl domain
        && shouldCrawl domain patterns resourceUrl
     then [mkResourceError resourceUrl (currentPageUrl c) 404 now]
     else []).
Proof.
  unfold on_response, shouldCrawl; simpl.
  destruct (status =? 404)%N; simpl; [|by rewrite app_nil_r].
  destruct (startsWith resourceUrl domain); simpl; [|by rewrite app_nil_r].
  destruct patterns as [|p ps]; simpl; [done|].
  destruct (includes resourceUrl p || some_includes ps resourceUrl);
    simpl; [done|by rewrite app_nil_r].
Qed.

(** The response handler on a delivered event: a record is appended
    exactly when the status is 404 and [shouldCrawl] accepts the URL of the
    response, whose text then starts with the origin. *)
Theorem response_event_record status resourceUrl now page_url c :
  resourceErrors
    (deliver domain patterns (mkDelivery (ResponseEv status resourceUrl) now page_url) c)
  = resourceErrors c ++
    (if (status =? 404)%N && startsWith resourceUrl domain
        && shouldCrawl domain patterns resourceUrl
     then [mkResourceError resourceUrl (currentPageUrl c) 404 now]
     else []).
Proof. apply on_response_resourceErrors. Qed.

(** C10. While [currentPageUrl] still holds the empty string, a response
    that qualifies is recorded with the empty string as [pageUrl], whereas
    a console error and an uncaught exception are recorded under the URL
    the browser reports, [page.url()]. *)
Theorem no_active_page_attribution c resourceUrl text message now page_url :
  currentPageUrl c = EmptyString ->
  shouldCrawl domain patterns resourceUrl = true ->
  resourceErrors
    (deliver domain patterns (mkDelivery (ResponseEv 404 resourceUrl) now page_url) c)
  = resourceErrors c ++ [mkResourceError resourceUrl EmptyString 404 now] /\
  errorsFound
    (deliver domain patterns (mkDelivery (ConsoleMsg "error" text) now page_url) c)
  = errorsFound c ++ [mkConsoleError page_url text now] /\
  errorsFound
    (deliver domain patterns (mkDelivery (PageErrorEv message) now page_url) c)
  = errorsFound c ++ [mkConsoleError page_url ("PAGE ERROR: " +:+ message) now].
Proof.
  intros Hcur Hscope. split.
  - unfold deliver; simpl. rewrite on_response_resourceErrors, Hscope, Hcur.
    apply shouldCrawl_true in Hscope as [-> _]. done.
  - unfold deliver, on_console, on_pageerror, or_else; simpl. by rewrite Hcur.
Qed.

End Handlers.

(** C10 at the state before the loop, for the start URL
    [https://x.test/context:proj]. *)
Lemma no_active_page_attribution_witness :
  currentPageUrl (initial demo_seed) = EmptyString /\
  shouldCrawl demo_domain demo_patterns "https://x.test/o:proj/logo.png" = true /\
  resourceErrors
    (deliver demo_domain demo_patterns
       (mkDelivery (ResponseEv 404 "https://x.test/o:proj/logo.png") "t0" "about:blank")
       (initial demo_seed))
  = resourceErrors (initial demo_seed) ++
    [mkResourceError "https://x.test/o:proj/logo.png" EmptyString 404 "t0"] /\
  errorsFound
    (deliver demo_domain demo_patterns
       (mkDelivery (ConsoleMsg "error" "f is not defined") "t0" "about:blank")
       (initial demo_seed))
  = errorsFound (initial demo_seed) ++
    [mkConsoleError "about:blank" "f is not defined" "t0"] /\
  errorsFound
    (deliver demo_domain demo_patterns
       (mkDelivery (PageErrorEv "boom") "t0" "about:blank") (initial demo_seed))
  = errorsFound (initial demo_seed) ++
    [mkConsoleError "about:blank" ("PAGE ERROR: " +:+ "boom") "t0"].
Proof.
  split; [reflexivity|]. split; [reflexivity|].
  apply (no_active_page_attribution demo_domain demo_patterns (initial demo_seed)
           "https://x.test/o:proj/logo.png" "f is not defined" "boom" "t0" "about:blank").
  - reflexivity.
  - reflexivity.
Defined.

(** C4.  The code at a 404 response from another origin.  With the start
    URL [https://x.test/context:proj] the crawl's origin is
    [https://x.test]; the response from
    [https://x.test.evil.example/o:proj/logo.png] has another origin, so
    it is out of scope, and the handler records it all the same: its test
    of line 73 compares a prefix of the text of the URL with the origin,
    as [shouldCrawl] does. *)
Theorem response_from_other_origin_recorded :
  url_origin demo_seed = Some demo_domain /\
  url_origin "https://x.test.evil.example/o:proj/logo.png"
    = Some "https://x.test.evil.example" /\
  resourceErrors
    (deliver demo_domain (allowedPatterns demo_seed)
       (mkDelivery (ResponseEv 404 "https://x.test.evil.example/o:proj/logo.png")
          "t0" demo_seed)
       (mark_visited demo_seed "START" (initial demo_seed)))
  = [mkResourceError "https://x.test.evil.example/o:proj/logo.png" demo_seed 404 "t0"].
Proof. repeat split. Qed.

(** ** One visit *)

Section Visit.

Variable domain : string.
Variable patterns : list string.
Variable browser : Browser.

Ltac unfold_crawl :=
  unfold process, try_catch, try_body, catch_body, page_goto, page_evaluate,
    sleep, response_status, bind, update, read, settle, ret, throw.

Ltac frame :=
  repeat (progress
    (rewrite ?deliver_all_visited, ?deliver_all_urlSources, ?deliver_all_currentPageUrl,
       ?deliver_all_popped, ?deliver_all_brokenLinks, ?deliver_all_effects,
       ?deliver_all_toVisit, ?deliver_all_pushed, <- ?app_assoc; simpl)).

Lemma enqueue_link_eq url link c :
  enqueue_link domain patterns url link c =
  (Fulfilled tt,
   if negb (Set_has (visited c) link) && shouldCrawl domain patterns link
   then push_toVisit (mkEntry link url) c else c).
Proof.
  unfold enqueue_link, bind, read, update, ret.
  by destruct (negb (Set_has (visited c) link) && shouldCrawl domain patterns link).
Qed.

Lemma for_each_links url links c :
  let c' := snd (for_each links (enqueue_link domain patterns url) c) in
  fst (for_each links (enqueue_link domain patterns url) c) = Fulfilled tt /\
  toVisit c' = toVisit c ++ new_entries domain patterns (visited c) url links /\
  pushed c' = pushed c ++ new_entries domain patterns (visited c) url links /\
  visited c' = visited c /\ urlSources c' = urlSources c /\
  brokenLinks c' = brokenLinks c /\ effects c' = effects c /\
  popped c' = popped c /\ currentPageUrl c' = currentPageUrl c.
Proof.
  revert c. induction links as [|link links IH]; intros c.
  - simpl. rewrite !app_nil_r. done.
  - simpl. unfold bind at 1 2 3 4 5 6 7 8 9. rewrite enqueue_link_eq.
    destruct (negb (Set_has (visited c) link) && shouldCrawl domain patterns link).
    + destruct (IH (push_toVisit (mkEntry link url) c)) as (H1&H2&H3&H4&H5&H6&H7&H8&H9).
      simpl in *. rewrite <- !app_assoc in H2, H3. simpl in H2, H3.
      repeat split; assumption.
    + apply IH.
Qed.

(** Everything a visit changes, by the way the browser answers it. *)
Lemma process_result url foundOn c :
  let c' := snd (process domain patterns browser url foundOn c) in
  fst (process domain patterns browser url foundOn c) = Fulfilled tt /\
  visited c' = Set_add (visited c) url /\
  urlSources c' = <[url := foundOn]> (urlSources c) /\
  currentPageUrl c' = url /\
  popped c' = popped c /\
  match navigation browser url c with
  | Fulfilled (Some status) =>
      if (status <? 400)%N then
        match extraction browser url c with
        | Fulfilled hrefs =>
            brokenLinks c' = brokenLinks c /\
            effects c' = effects c ++ [Goto url 30000; Sleep 1000; Evaluate] /\
            toVisit c' = toVisit c ++
              new_entries domain patterns (Set_add (visited c) url) url (extract_links hrefs) /\
            pushed c' = pushed c ++
              new_entries domain patterns (Set_add (visited c) url) url (extract_links hrefs)
        | Rejected message =>
            brokenLinks c' = brokenLinks c ++ [mkBrokenLink url foundOn StatusError message] /\
            effects c' = effects c ++ [Goto url 30000; Sleep 1000; Evaluate] /\
            toVisit c' = toVisit c /\ pushed c' = pushed c
        end
      else
        brokenLinks c' = brokenLinks c ++
          [mkBrokenLink url foundOn (HttpStatus status)
             (if (status =? 404)%N then "Page not found" else http_error_text status)] /\
        effects c' = effects c ++ [Goto url 30000; Sleep 1000] /\
        toVisit c' = toVisit c /\ pushed c' = pushed c
  | Fulfilled None =>
      brokenLinks c' = brokenLinks c ++ [mkBrokenLink url foundOn StatusError null_status_message] /\
      effects c' = effects c ++ [Goto url 30000] /\
      toVisit c' = toVisit c /\ pushed c' = pushed c
  | Rejected message =>
      brokenLinks c' = brokenLinks c ++ [mkBrokenLink url foundOn StatusError message] /\
      effects c' = effects c ++ [Goto url 30000] /\
      toVisit c' = toVisit c /\ pushed c' = pushed c
  end.
Proof.
  unfold navigation, extraction. unfold_crawl. simpl.
  destruct (goto_answer browser (effects c ++ [Goto url 30000%N])) as [ds1 [[status|]|m]];
    simpl; [|by frame..].
  destruct (N.eqb_spec status 404) as [->|Hne]; simpl.
  { frame. done. }
  destruct (N.leb_spec 400 status) as [Hge|Hlt]; simpl.
  { destruct (N.ltb_spec status 400) as [?|_]; [lia|]. frame. done. }
  destruct (N.ltb_spec status 400) as [_|?]; [|lia]. frame.
  destruct (evaluate_answer browser (effects c ++ [Goto url 30000%N; Sleep 1000%N; Evaluate]))
    as [ds3 [hrefs|m]]; simpl; [|by frame].
  match goal with
  | |- context [for_each ?l _ ?c0] =>
      destruct (for_each_links url l c0) as (H1&H2&H3&H4&H5&H6&H7&H8&H9)
  end.
  destruct (for_each _ _ _) as [[[]|m] c9]; simpl in *; [|done].
  revert H2 H3 H4 H5 H6 H7 H8 H9. frame.
  intros -> -> -> -> -> -> -> ->. done.
Qed.

(** C2, as the code has it.  After the navigation request the visit
    pauses for one second whenever [page.goto] resolved to a response,
    whatever its status, also 4xx and 5xx; the pause is left out only when
    no response was obtained.  Link extraction follows the pause for a
    status below 400 only. *)
Theorem settle_pause_after_every_response url foundOn c :
  effects (snd (process domain patterns browser url foundOn c)) =
  effects c ++ Goto url 30000 ::
    match navigation browser url c with
    | Fulfilled (Some status) =>
        Sleep 1000 :: (if (status <? 400)%N then [Evaluate] else [])
    | _ => []
    end.
Proof.
  destruct (process_result url foundOn c) as (_&_&_&_&_&H). revert H. simpl.
  destruct (navigation browser url c) as [[status|]|m].
  - destruct (status <? 400)%N.
    + by destruct (extraction browser url c); intros (_&->&_).
    + by intros (_&->&_).
  - by intros (_&->&_).
  - by intros (_&->&_).
Qed.

(** What a visit appends to [brokenLinks], case by case.  A visit never
    throws, and it appends at most one record: for status 404 the record with
    ['Page not found'], for another status from 400 on the record with that
    status, and the record with status ['ERROR'] and the message when
    anything in the visit throws, which is when the navigation is rejected,
    when it resolves to no response, and also when the navigation succeeds
    and link extraction is rejected.  In each of these cases the queue is
    left as it was.  A successful navigation followed by a successful
    extraction appends no record. *)
Theorem visit_records_failure url foundOn c :
  let c' := snd (process domain patterns browser url foundOn c) in
  fst (process domain patterns browser url foundOn c) = Fulfilled tt /\
  match navigation browser url c with
  | Fulfilled (Some status) =>
      if (status =? 404)%N then
        brokenLinks c' = brokenLinks c ++
          [mkBrokenLink url foundOn (HttpStatus 404) "Page not found"] /\
        toVisit c' = toVisit c
      else if (400 <=? status)%N then
        brokenLinks c' = brokenLinks c ++
          [mkBrokenLink url foundOn (HttpStatus status) (http_error_text status)] /\
        toVisit c' = toVisit c
      else
        match extraction browser url c with
        | Fulfilled _ => brokenLinks c' = brokenLinks c
        | Rejected message =>
            brokenLinks c' = brokenLinks c ++
              [mkBrokenLink url foundOn StatusError message] /\
            toVisit c' = toVisit c
        end
  | Fulfilled None =>
      brokenLinks c' = brokenLinks c ++
        [mkBrokenLink url foundOn StatusError null_status_message] /\
      toVisit c' = toVisit c
  | Rejected message =>
      brokenLinks c' = brokenLinks c ++ [mkBrokenLink url foundOn StatusError message] /\
      toVisit c' = toVisit c
  end.
Proof.
  destruct (process_result url foundOn c) as (Hfst&_&_&_&_&H).
  split; [done|]. revert H. simpl.
  destruct (navigation browser url c) as [[status|]|m]; [|tauto..].
  destruct (N.eqb_spec status 404) as [->|Hne].
  { simpl. tauto. }
  destruct (N.leb_spec 400 status), (N.ltb_spec status 400); try lia; [tauto|].
  destruct (extraction browser url c); tauto.
Qed.

(** The parts of a visit that do not depend on how the browser answers. *)
Lemma process_summary url foundOn c :
  let c' := snd (process domain patterns browser url foundOn c) in
  visited c' = Set_add (visited c) url /\
  urlSources c' = <[url := foundOn]> (urlSources c) /\
  popped c' = popped c /\
  exists new bl fx,
    toVisit c' = toVisit c ++ new /\
    pushed c' = pushed c ++ new /\
    (forall e, e ∈ new ->
       fe_foundOn e = url /\ shouldCrawl domain patterns (fe_url e) = true) /\
    brokenLinks c' = brokenLinks c ++ bl /\
    (bl_url <$> bl) `sublist_of` [url] /\
    effects c' = effects c ++ Goto url 30000 :: fx /\
    gotos fx = [].
Proof.
  destruct (process_result url foundOn c) as (_&Hv&Hs&_&Hp&H). revert H. simpl.
  intros H. repeat (split; [done|]).
  assert (Hnew : forall seen links e, e ∈ new_entries domain patterns seen url links ->
            fe_foundOn e = url /\ shouldCrawl domain patterns (fe_url e) = true).
  { intros seen links e. induction links as [|l links IH]; simpl; [by intros ?%elem_of_nil|].
    destruct (negb (Set_has seen l) && shouldCrawl domain patterns l) eqn:E; [|done].
    intros [->|?]%elem_of_cons; [|by apply IH].
    simpl. by apply andb_prop in E as [_ ->]. }
  assert (Hnil : forall e : FrontierEntry, e ∈ @nil FrontierEntry ->
            fe_foundOn e = url /\ shouldCrawl domain patterns (fe_url e) = true).
  { by intros e ?%elem_of_nil. }
  destruct (navigation browser url c) as [[status|]|m].
  - destruct (status <? 400)%N.
    + destruct (extraction browser url c) as [hrefs|m]; destruct H as (Hb&Hf&Ht&Hq).
      * exists (new_entries domain patterns (Set_add (visited c) url) url (extract_links hrefs)),
          [], [Sleep 1000%N; Evaluate]. rewrite (app_nil_r (brokenLinks c)).
        split_and!; [exact Ht|exact Hq|apply Hnew|exact Hb|apply sublist_nil_l|exact Hf|done].
      * exists [], [mkBrokenLink url foundOn StatusError m], [Sleep 1000%N; Evaluate].
        rewrite !app_nil_r. split_and!; done.
    + destruct H as (Hb&Hf&Ht&Hq).
      exists [], [mkBrokenLink url foundOn (HttpStatus status)
                    (if (status =? 404)%N then "Page not found" else http_error_text status)],
        [Sleep 1000%N].
      rewrite !app_nil_r. split_and!; done.
  - destruct H as (Hb&Hf&Ht&Hq).
    exists [], [mkBrokenLink url foundOn StatusError null_status_message], [].
    rewrite !app_nil_r. split_and!; done.
  - destruct H as (Hb&Hf&Ht&Hq).
    exists [], [mkBrokenLink url foundOn StatusError m], [].
    rewrite !app_nil_r. split_and!; done.
Qed.


End Visit.

(** C2, as stated, fails: a page answered with status 500 is followed by
    the one-second pause. *)
Lemma settle_pause_after_http_error :
  navigation (serve (fun _ => status_page 500)) demo_seed (initial demo_seed)
    = Fulfilled (Some 500%N) /\
  effects <$> iterate demo_domain demo_patterns (serve (fun _ => status_page 500)) 1
                (initial demo_seed)
    = Some [Goto demo_seed 30000; Sleep 1000].
Proof. split; reflexivity. Qed.

(** C3.  The code at a page that loads and then navigates away: the
    navigation answers 200 and nothing goes wrong in transport, yet a
    record with status ['ERROR'] is put in [brokenLinks], because the
    [try] block also encloses [page.evaluate], whose rejection reaches the
    [catch] written for pages that fail to load. *)
Lemma broken_link_without_navigation_failure :
  navigation (serve (fun _ => redirecting_page)) demo_seed (initial demo_seed)
    = Fulfilled (Some 200%N) /\
  brokenLinks <$> iterate demo_domain demo_patterns (serve (fun _ => redirecting_page)) 1
                    (initial demo_seed)
    = Some [mkBrokenLink demo_seed "START" StatusError "Execution context was destroyed"].
Proof. split; reflexivity. Qed.

(** ** The loop *)

Lemma gotos_app fx1 fx2 : gotos (fx1 ++ fx2) = gotos fx1 ++ gotos fx2.
Proof.
  induction fx1 as [|[url timeout|ms|] fx1 IH]; simpl; [done|by rewrite IH|done|done].
Qed.

Lemma first_discovery_app_Some log more u :
  is_Some (first_discovery log u) ->
  first_discovery (log ++ more) u = first_discovery log u.
Proof.
  unfold first_discovery. induction log as [|e log IH]; simpl.
  - by intros [? ?].
  - by destruct (bool_decide (fe_url e = u)).
Qed.

Lemma first_discovery_fresh log e more :
  (forall e0, e0 ∈ log -> fe_url e0 <> fe_url e) ->
  first_discovery (log ++ e :: more) (fe_url e) = Some (fe_foundOn e).
Proof.
  unfold first_discovery. induction log as [|e0 log IH]; simpl; intros Hfresh.
  - by rewrite bool_decide_eq_true_2.
  - rewrite bool_decide_eq_false_2.
    + apply IH. intros e1 He1. apply Hfresh. by right.
    + apply Hfresh. by left.
Qed.

Lemma snoc_split {A : Type} (l l1 l2 : list A) (x a : A) :
  l ++ [x] = l1 ++ a :: l2 ->
  (l2 = [] /\ l = l1 /\ x = a) \/ (exists l2', l2 = l2' ++ [x] /\ l = l1 ++ a :: l2').
Proof.
  destruct l2 as [|y l2 _] using rev_ind; intros H.
  - left. apply app_inj_tail in H as [-> ->]. done.
  - right. exists l2. rewrite app_comm_cons, app_assoc in H.
    apply app_inj_tail in H as [-> ->]. done.
Qed.

Section Loop.

Variable domain : string.
Variable patterns : list string.
Variable browser : Browser.

Lemma crawl_inv_initial startUrl :
  crawl_inv (shouldCrawl domain patterns) startUrl (initial startUrl).
Proof.
  split; simpl; try done.
  - exists []. split; [done|]. by intros e ?%elem_of_nil.
  - by intros e ?%elem_of_nil.
  - constructor.
  - by intros u ?%elem_of_nil.
  - by intros u ?%elem_of_nil.
  - intros u [? H]. by rewrite lookup_empty in H.
Qed.

Lemma crawl_inv_skip startUrl c e q :
  crawl_inv (shouldCrawl domain patterns) startUrl c ->
  toVisit c = e :: q ->
  Set_has (visited c) (fe_url e) || negb (shouldCrawl domain patterns (fe_url e)) = true ->
  crawl_inv (shouldCrawl domain patterns) startUrl (shift_toVisit e q c).
Proof.
  intros [] Hq Hskip. split; simpl; try done.
  - rewrite inv_fifo0, Hq, <- app_assoc. done.
  - intros e0 [He0|He0%list_elem_of_singleton]%elem_of_app Hscope; [by apply inv_popped0|].
    subst e0. rewrite Hscope in Hskip. simpl in Hskip. rewrite orb_false_r in Hskip.
    by apply bool_decide_eq_true in Hskip.
Qed.

Lemma crawl_inv_process startUrl c e q :
  crawl_inv (shouldCrawl domain patterns) startUrl c ->
  toVisit c = e :: q ->
  fe_url e ∉ visited c ->
  shouldCrawl domain patterns (fe_url e) = true ->
  crawl_inv (shouldCrawl domain patterns) startUrl
    (snd (process domain patterns browser (fe_url e) (fe_foundOn e) (shift_toVisit e q c))).
Proof.
  intros [] Hq Hnew Hscope.
  destruct (process_summary domain patterns browser (fe_url e) (fe_foundOn e)
              (shift_toVisit e q c))
    as (Hv & Hs & Hp & new & bl & fx & Ht & Hpu & Hnews & Hb & Hbl & Hfx & Hg).
  simpl in *.
  assert (Hadd : Set_add (visited c) (fe_url e) = visited c ++ [fe_url e]).
  { unfold Set_add, Set_has. by rewrite bool_decide_eq_false_2. }
  rewrite Hadd in Hv. clear Hadd.
  assert (Hfresh : forall e0, e0 ∈ popped c -> fe_url e0 <> fe_url e).
  { intros e0 He0 Heq. apply Hnew. rewrite <- Heq. apply inv_popped0; [done|].
    by rewrite Heq. }
  destruct inv_pushed0 as (rest & Hrest & Hall).
  assert (Hin : e = mkEntry startUrl "START" \/ e ∈ rest).
  { assert (He : e ∈ pushed c).
    { rewrite inv_fifo0, Hq. apply elem_of_app. right. by left. }
    rewrite Hrest in He. by apply elem_of_cons in He. }
  split.
  - rewrite Hpu, Hp, Ht, inv_fifo0, Hq, <- !app_assoc. done.
  - exists (rest ++ new). split.
    + rewrite Hpu, Hrest. done.
    + intros e0 [He0|He0]%elem_of_app; rewrite Hv.
      * destruct (Hall e0 He0) as [? ?]. split; [done|]. apply elem_of_app. by left.
      * destruct (Hnews e0 He0) as [-> ?]. split; [done|].
        apply elem_of_app. right. by left.
  - rewrite Hp, Hv.
    intros e0 [He0|He0%list_elem_of_singleton]%elem_of_app Hsc; apply elem_of_app.
    + left. by apply inv_popped0.
    + subst e0. right. by left.
  - rewrite Hv. apply NoDup_app. split_and!; [done| |apply NoDup_singleton].
    intros x Hx Hx'%list_elem_of_singleton. by subst x.
  - rewrite Hfx, Hv, gotos_app. simpl. by rewrite Hg, inv_gotos0.
  - rewrite Hb, Hv, fmap_app. by apply sublist_app.
  - rewrite Hv. intros u [Hu|Hu%list_elem_of_singleton]%elem_of_app; [by apply inv_scope0|].
    by subst u.
  - rewrite Hv, Hs, Hpu.
    intros u [Hu|Hu%list_elem_of_singleton]%elem_of_app; [|subst u].
    + assert (u <> fe_url e) by (by intros ->).
      rewrite lookup_insert_ne by done.
      destruct (inv_sources0 u Hu) as [Hsome Heq]. split; [done|].
      rewrite first_discovery_app_Some; [done|]. by rewrite <- Heq.
    + rewrite lookup_insert_eq. split; [done|].
      rewrite inv_fifo0, Hq, <- app_assoc. simpl.
      by rewrite first_discovery_fresh.
  - rewrite Hv, Hs. intros u Hu. apply elem_of_app.
    destruct (decide (u = fe_url e)) as [->|Hne]; [right; by left|].
    rewrite lookup_insert_ne in Hu by done. left. by apply inv_keys0.
  - rewrite Hv, Hs. intros l1 A l2 B Hsplit HA.
    apply snoc_split in Hsplit as [(_ & Hl1 & HeA)|(l2' & _ & Hsplit)].
    + subst l1 A. rewrite lookup_insert_eq in HA. injection HA as <-.
      destruct Hin as [->|Hin]; [by left|]. right. by apply Hall.
    + assert (A <> fe_url e).
      { intros ->. apply Hnew. rewrite Hsplit. apply elem_of_app. right. by left. }
      rewrite lookup_insert_ne in HA by done. by eapply inv_order0.
Qed.

Lemma crawl_inv_iteration startUrl c c' :
  crawl_inv (shouldCrawl domain patterns) startUrl c ->
  iteration domain patterns browser c = Some c' ->
  crawl_inv (shouldCrawl domain patterns) startUrl c'.
Proof.
  intros Hinv. unfold iteration.
  destruct (toVisit c) as [|e q] eqn:Hq; [done|]. simpl.
  destruct (Set_has (visited c) (fe_url e)
            || negb (shouldCrawl domain patterns (fe_url e))) eqn:Hskip;
    intros [= <-].
  - by apply crawl_inv_skip.
  - apply orb_false_elim in Hskip as [Hhas Hscope].
    apply crawl_inv_process; [done|done| |].
    + by apply bool_decide_eq_false in Hhas.
    + by apply negb_false_iff in Hscope.
Qed.

Lemma crawl_inv_reachable startUrl c :
  reachable domain patterns browser startUrl c ->
  crawl_inv (shouldCrawl domain patterns) startUrl c.
Proof.
  induction 1 as [|c c' _ IH Hstep]; [apply crawl_inv_initial|].
  by eapply crawl_inv_iteration.
Qed.

Lemma iterate_reachable startUrl n c c' :
  reachable domain patterns browser startUrl c ->
  iterate domain patterns browser n c = Some c' ->
  reachable domain patterns browser startUrl c'.
Proof.
  revert c. induction n as [|n IH]; intros c Hc; simpl.
  - by intros [= <-].
  - destruct (iteration domain patterns browser c) as [c1|] eqn:E; [|done].
    apply IH. by eapply reachable_iteration.
Qed.

End Loop.

(** ** The order of the visits *)

Section Order.

Variable domain : string.
Variable patterns : list string.
Variable browser : Browser.

(** When a page is visited, every accepted entry taken out of the queue
    before its own has been visited already. *)
Lemma visit_order_inv startUrl c :
  reachable domain patterns browser startUrl c ->
  forall l1 A l2, visited c = l1 ++ A :: l2 ->
    exists p1 e p2,
      popped c = p1 ++ e :: p2 /\ fe_url e = A /\
      forall e', e' ∈ p1 -> shouldCrawl domain patterns (fe_url e') = true ->
        fe_url e' ∈ l1.
Proof.
  induction 1 as [|c c' Hreach IH Hstep]; intros l1 A l2.
  - simpl. by destruct l1.
  - apply crawl_inv_reachable in Hreach as [].
    unfold iteration in Hstep. destruct (toVisit c) as [|e q] eqn:Hq; [done|].
    simpl in Hstep.
    destruct (Set_has (visited c) (fe_url e)
              || negb (shouldCrawl domain patterns (fe_url e))) eqn:Hskip;
      injection Hstep as <-.
    + simpl. intros Hsplit. destruct (IH l1 A l2 Hsplit) as (p1 & e0 & p2 & Hp & Hu & Hall).
      exists p1, e0, (p2 ++ [e]). rewrite Hp, <- app_assoc. done.
    + apply orb_false_elim in Hskip as [Hhas _]. apply bool_decide_eq_false in Hhas.
      destruct (process_summary domain patterns browser (fe_url e) (fe_foundOn e)
                  (shift_toVisit e q c)) as (Hv & _ & Hp & _).
      simpl in Hv, Hp. rewrite Hv, Hp.
      assert (Hadd : Set_add (visited c) (fe_url e) = visited c ++ [fe_url e]).
      { unfold Set_add, Set_has. by rewrite bool_decide_eq_false_2. }
      rewrite Hadd. intros Hsplit.
      apply snoc_split in Hsplit as [(_ & Hl1 & HeA)|(l2' & _ & Hsplit)].
      * subst l1 A. exists (popped c), e, []. split_and!; [done|done|].
        intros e' He' Hsc. by apply inv_popped0.
      * destruct (IH l1 A l2' Hsplit) as (p1 & e0 & p2 & Hp0 & Hu & Hall).
        exists p1, e0, (p2 ++ [e]). rewrite Hp0, <- app_assoc. done.
Qed.

End Order.

(** ** The crawl as a whole *)

Lemma first_discovery_Some log u f :
  first_discovery log u = Some f ->
  exists e, e ∈ log /\ fe_url e = u /\ fe_foundOn e = f.
Proof.
  unfold first_discovery. induction log as [|e log IH]; simpl; [done|].
  destruct (bool_decide (fe_url e = u)) eqn:E.
  - intros [= <-]. exists e. apply bool_decide_eq_true in E. split; [by left|done].
  - intros H. destruct (IH H) as (e0 & ? & ? & ?). exists e0. split; [by right|done].
Qed.

Section Crawl.

Variable domain : string.
Variable patterns : list string.
Variable browser : Browser.

(** C5. At every point of a crawl no URL has been navigated to twice:
    the navigations made so far are the visited URLs in order, without
    repetition, however often a URL was put in the queue; and no two
    records in [brokenLinks] are for the same URL. *)
Theorem at_most_one_visit startUrl c :
  reachable domain patterns browser startUrl c ->
  gotos (effects c) = visited c /\
  NoDup (gotos (effects c)) /\
  NoDup (bl_url <$> brokenLinks c).
Proof.
  intros [] %crawl_inv_reachable. split; [done|]. split.
  - by rewrite inv_gotos0.
  - by eapply sublist_NoDup.
Qed.

(** C6. At the top of every iteration the keys of [urlSources] are the
    visited URLs; the value stored for a visited URL is the [foundOn] of
    the earliest entry ever queued for it; and once the start URL is
    visited its value is ['START']. *)
Theorem provenance_of_visited startUrl c :
  reachable domain patterns browser startUrl c ->
  (forall u, u ∈ visited c <-> is_Some (urlSources c !! u)) /\
  (forall u, u ∈ visited c -> urlSources c !! u = first_discovery (pushed c) u) /\
  (startUrl ∈ visited c -> urlSources c !! startUrl = Some "START").
Proof.
  intros [] %crawl_inv_reachable. split_and!.
  - intros u. split; [|by apply inv_keys0].
    intros Hu. by destruct (inv_sources0 u Hu).
  - intros u Hu. by destruct (inv_sources0 u Hu).
  - intros Hu. destruct (inv_sources0 startUrl Hu) as [_ ->].
    destruct inv_pushed0 as (rest & -> & _).
    unfold first_discovery. simpl. by rewrite bool_decide_eq_true_2.
Qed.

(** The queue is closed under the test the code applies: every entry put
    in the queue after the seed has a URL that [shouldCrawl] accepts, and
    so has every visited URL. *)
Theorem scope_closure startUrl c :
  reachable domain patterns browser startUrl c ->
  (exists rest, pushed c = mkEntry startUrl "START" :: rest /\
     forall e, e ∈ rest -> shouldCrawl domain patterns (fe_url e) = true) /\
  (forall u, u ∈ visited c -> shouldCrawl domain patterns u = true).
Proof.
  intros [] %crawl_inv_reachable. split; [|done].
  destruct inv_pushed0 as (rest & Hrest & Hall). exists rest. split; [done|].
  intros e He. by apply Hall.
Qed.

(** C8. The queue is first in, first out, and the pages are visited in
    the order in which they were first put in it.  The entries taken out
    of the queue are, in order, the first of the entries put in, and what
    remains in the queue are the others.  When a page [B] is visited,
    every accepted URL that was put in the queue before [B] ever was has
    been visited before [B].  And a visited URL whose entries were all
    found on [B] comes after [B] in the order of the visits, unless it is
    the start URL, found on ['START']. *)
Theorem fifo_order startUrl c :
  reachable domain patterns browser startUrl c ->
  pushed c = popped c ++ toVisit c /\
  (forall iA eA B jB,
     pushed c !! iA = Some eA ->
     shouldCrawl domain patterns (fe_url eA) = true ->
     (forall k e, pushed c !! k = Some e -> fe_url e = B -> iA < k) ->
     visited c !! jB = Some B ->
     exists jA, jA < jB /\ visited c !! jA = Some (fe_url eA)) /\
  forall A B,
    (forall e, e ∈ pushed c -> fe_url e = A -> fe_foundOn e = B) ->
    forall l1 l2, visited c = l1 ++ A :: l2 ->
      B ∈ l1 \/ (A = startUrl /\ B = "START").
Proof.
  intros Hreach. pose proof (visit_order_inv domain patterns browser startUrl c Hreach) as Hord.
  apply crawl_inv_reachable in Hreach as []. split; [done|]. split.
  - intros iA eA B jB HiA Hscope Hlater HjB.
    apply list_elem_of_split_length in HjB as (l1 & l2 & Hsplit & ->).
    destruct (Hord l1 B l2 Hsplit) as (p1 & e & p2 & Hp & Hu & Hall).
    assert (He : pushed c !! length p1 = Some e).
    { rewrite inv_fifo0, Hp, <- !app_assoc. by apply list_lookup_middle. }
    pose proof (Hlater _ _ He Hu) as Hlt.
    assert (HeA : eA ∈ p1).
    { apply list_elem_of_lookup. exists iA.
      rewrite inv_fifo0, Hp, <- app_assoc, lookup_app_l in HiA; done. }
    apply Hall in HeA; [|done].
    apply list_elem_of_lookup in HeA as [jA HjA]. exists jA. split.
    + by apply lookup_lt_Some in HjA.
    + rewrite Hsplit, lookup_app_l; [done|]. by apply lookup_lt_Some in HjA.
  - intros A B Honly l1 l2 Hsplit.
    assert (HA : A ∈ visited c).
    { rewrite Hsplit. apply elem_of_app. right. by left. }
    destruct (inv_sources0 A HA) as [[f Hf] Hfirst].
    rewrite Hf in Hfirst. symmetry in Hfirst.
    apply first_discovery_Some in Hfirst as (e & He & Hurl & Hfound).
    rewrite (Honly e He Hurl) in Hfound. subst f.
    destruct (inv_order0 l1 A l2 B Hsplit Hf) as [?|?]; [by right|by left].
Qed.

End Crawl.

Lemma demo_final_reachable :
  reachable demo_domain demo_patterns (serve demo_site) demo_seed demo_final.
Proof.
  apply (iterate_reachable demo_domain demo_patterns (serve demo_site) demo_seed 5
           (initial demo_seed)).
  - apply reachable_initial.
  - vm_compute. reflexivity.
Defined.

(** C5 on the project of four pages, where the missing page is queued
    twice. *)
Lemma at_most_one_visit_witness :
  reachable demo_domain demo_patterns (serve demo_site) demo_seed demo_final /\
  gotos (effects demo_final) = visited demo_final /\
  NoDup (gotos (effects demo_final)) /\
  NoDup (bl_url <$> brokenLinks demo_final).
Proof.
  split; [exact demo_final_reachable|].
  exact (at_most_one_visit demo_domain demo_patterns (serve demo_site) demo_seed
           demo_final demo_final_reachable).
Defined.

(** C6 on the same crawl. *)
Lemma provenance_of_visited_witness :
  reachable demo_domain demo_patterns (serve demo_site) demo_seed demo_final /\
  (forall u, u ∈ visited demo_final <-> is_Some (urlSources demo_final !! u)) /\
  (forall u, u ∈ visited demo_final ->
     urlSources demo_final !! u = first_discovery (pushed demo_final) u) /\
  (demo_seed ∈ visited demo_final -> urlSources demo_final !! demo_seed = Some "START").
Proof.
  split; [exact demo_final_reachable|].
  exact (provenance_of_visited demo_domain demo_patterns (serve demo_site) demo_seed
           demo_final demo_final_reachable).
Defined.

(** Closure under [shouldCrawl] on the same crawl. *)
Lemma scope_closure_witness :
  reachable demo_domain demo_patterns (serve demo_site) demo_seed demo_final /\
  (exists rest, pushed demo_final = mkEntry demo_seed "START" :: rest /\
     forall e, e ∈ rest -> shouldCrawl demo_domain demo_patterns (fe_url e) = true) /\
  (forall u, u ∈ visited demo_final -> shouldCrawl demo_domain demo_patterns u = true).
Proof.
  split; [exact demo_final_reachable|].
  exact (scope_closure demo_domain demo_patterns (serve demo_site) demo_seed
           demo_final demo_final_reachable).
Defined.

(** C8 on the same crawl: the first object page was queued before the
    second one ever was, and is visited before it; and it is found on the
    context page only, and is visited after it. *)
Lemma fifo_order_witness :
  reachable demo_domain demo_patterns (serve demo_site) demo_seed demo_final /\
  pushed demo_final !! 1 = Some (mkEntry demo_a demo_seed) /\
  shouldCrawl demo_domain demo_patterns demo_a = true /\
  (forall k e, pushed demo_final !! k = Some e -> fe_url e = demo_b -> 1 < k) /\
  visited demo_final !! 2 = Some demo_b /\
  (exists jA, jA < 2 /\ visited demo_final !! jA = Some demo_a) /\
  (forall e, e ∈ pushed demo_final -> fe_url e = demo_a -> fe_foundOn e = demo_seed) /\
  forall l1 l2, visited demo_final = l1 ++ demo_a :: l2 ->
    demo_seed ∈ l1 \/ (demo_a = demo_seed /\ demo_seed = "START").
Proof.
  assert (H1 : pushed demo_final !! 1 = Some (mkEntry demo_a demo_seed))
    by (vm_compute; reflexivity).
  assert (H2 : shouldCrawl demo_domain demo_patterns demo_a = true) by reflexivity.
  assert (H3 : forall k e, pushed demo_final !! k = Some e -> fe_url e = demo_b -> 1 < k).
  { intros k e Hk He.
    do 5 (destruct k as [|k];
          [vm_compute in Hk; injection Hk as <-; vm_compute in He;
           first [discriminate He | lia]|]).
    vm_compute in Hk. discriminate Hk. }
  assert (H4 : visited demo_final !! 2 = Some demo_b) by (vm_compute; reflexivity).
  assert (Honly : forall e, e ∈ pushed demo_final ->
            fe_url e = demo_a -> fe_foundOn e = demo_seed).
  { apply (proj1 (Forall_forall
                    (fun e => fe_url e = demo_a -> fe_foundOn e = demo_seed)
                    (pushed demo_final))).
    apply (bool_decide_unpack _). vm_compute. exact I. }
  destruct (fifo_order demo_domain demo_patterns (serve demo_site) demo_seed
              demo_final demo_final_reachable) as (_ & Hearlier & Hfound).
  split; [exact demo_final_reachable|]. split; [exact H1|]. split; [exact H2|].
  split; [exact H3|]. split; [exact H4|].
  split; [exact (Hearlier 1 (mkEntry demo_a demo_seed) demo_b 2 H1 H2 H3 H4)|].
  split; [exact Honly|].
  exact (Hfound demo_a demo_seed Honly).
Defined.

(** C7.  The code on a site that links to another origin.  With the
    start URL [https://x.test/context:proj] the crawl's origin is
    [https://x.test].  The context page links to
    [https://x.test.evil.example/context:proj], which has another origin
    and is out of scope; the crawl puts it in the queue and visits it,
    because [shouldCrawl] compares a prefix of the text of the URL with
    the origin. *)
Theorem other_origin_link_visited :
  url_origin demo_seed = Some demo_domain /\
  url_origin other_origin_url = Some "https://x.test.evil.example" /\
  (fun c => (pushed c, visited c)) <$>
    iterate demo_domain (allowedPatterns demo_seed) (serve linking_out_site) 2
      (initial demo_seed)
  = Some ([mkEntry demo_seed "START"; mkEntry other_origin_url demo_seed],
          [demo_seed; other_origin_url]).
Proof. split_and!; vm_compute; reflexivity. Qed.

(** ** The scenarios of the specification, run *)

Example contextMatch_lidal :
  contextMatch "https://gams.uni-graz.at/context:lidal" = Some "lidal".
Proof. reflexivity. Qed.

Example url_origin_lidal :
  url_origin "https://gams.uni-graz.at/context:lidal" = Some "https://gams.uni-graz.at".
Proof. reflexivity. Qed.

Example allowedPatterns_without_context :
  allowedPatterns "https://x.test/index.html" = [].
Proof. reflexivity. Qed.

Example allowedPatterns_stops_at_delimiter :
  allowedPatterns "https://x.test/context:proj.sub/page?view=context:other#top"
    = ["context:proj.sub"; "o:proj.sub"].
Proof. reflexivity. Qed.

(** Scenario 1: the object page is visited, the other site never queued. *)
Example scenario_other_site_not_queued :
  loop demo_domain demo_patterns (serve demo_site) 10 (initial demo_seed) = Some demo_final /\
  visited demo_final = [demo_seed; demo_a; demo_b; demo_c] /\
  fe_url <$> pushed demo_final = [demo_seed; demo_a; demo_b; demo_c; demo_c].
Proof. split_and!; vm_compute; reflexivity. Qed.

(** Scenario 2: the start page itself answers 404. *)
Example scenario_seed_not_found :
  (fun c => (brokenLinks c, toVisit c)) <$>
    iterate demo_domain demo_patterns (serve (fun _ => status_page 404)) 1 (initial demo_seed)
  = Some ([mkBrokenLink demo_seed "START" (HttpStatus 404) "Page not found"], []).
Proof. vm_compute. reflexivity. Qed.

(** Scenario 5: the page linked from two pages is visited once, and its
    source is the page that queued it first. *)
Example scenario_two_sources :
  urlSources demo_final !! demo_c = Some demo_a /\
  brokenLinks demo_final = [mkBrokenLink demo_c demo_a (HttpStatus 404) "Page not found"].
Proof. split; vm_compute; reflexivity. Qed.

(** * Further properties of the crawl *)

(** ** Handlers and the crawl state *)

Section Attribution.

Variable domain : string.
Variable patterns : list string.
Variable browser : Browser.

Lemma attributed_refl url c :
  currentPageUrl c = url -> attributed (shouldCrawl domain patterns) url c c.
Proof.
  intros H. split; [done|]. exists [], []. rewrite !app_nil_r. by split_and!.
Qed.

Lemma attributed_same url c0 c c' :
  currentPageUrl c' = currentPageUrl c -> errorsFound c' = errorsFound c ->
  resourceErrors c' = resourceErrors c ->
  attributed (shouldCrawl domain patterns) url c0 c ->
  attributed (shouldCrawl domain patterns) url c0 c'.
Proof.
  intros Hcur He Hr [Hc (es & rs & H1 & H2 & H3 & H4)].
  split; [congruence|]. exists es, rs. rewrite He, Hr. by split_and!.
Qed.

Lemma attributed_deliver url c0 d c :
  attributed (shouldCrawl domain patterns) url c0 c ->
  attributed (shouldCrawl domain patterns) url c0 (deliver domain patterns d c).
Proof.
  intros [Hc (es & rs & H1 & H2 & H3 & H4)].
  assert (Hor : forall page_url,
            url <> EmptyString -> or_else (currentPageUrl c) page_url = url).
  { intros page_url. rewrite Hc. unfold or_else. by destruct url. }
  destruct d as [[type text|message|status resourceUrl] now page_url];
    unfold deliver; simpl.
  - unfold on_console. destruct (String.eqb type "error"); [|by split; [|exists es, rs]].
    split; [done|].
    exists (es ++ [mkConsoleError (or_else (currentPageUrl c) page_url) text now]), rs.
    simpl. rewrite H1, <- app_assoc. split_and!; try done.
    apply Forall_app. split; [done|]. constructor; [|done]. simpl. apply Hor.
  - unfold on_pageerror. split; [done|].
    exists (es ++ [mkConsoleError (or_else (currentPageUrl c) page_url)
                     ("PAGE ERROR: " +:+ message) now]), rs.
    simpl. rewrite H1, <- app_assoc. split_and!; try done.
    apply Forall_app. split; [done|]. constructor; [|done]. simpl. apply Hor.
  - pose proof (on_response_resourceErrors domain patterns status resourceUrl now c) as Hres.
    assert (Hsame : same_crawl c (on_response domain patterns status resourceUrl now c)).
    { apply (deliver_same domain patterns
               (mkDelivery (ResponseEv status resourceUrl) now page_url) c). }
    assert (Herr : errorsFound (on_response domain patterns status resourceUrl now c)
                   = errorsFound c).
    { unfold on_response.
      destruct ((status =? 404)%N && startsWith resourceUrl domain); [|done].
      by destruct ((length patterns =? 0)%nat || some_includes patterns resourceUrl). }
    split; [destruct Hsame as (_&_&_&_&->&_); done|].
    rewrite Hres, Herr, H2, <- app_assoc. exists es. eexists. split_and!; try done.
    apply Forall_app. split; [done|].
    destruct (status =? 404)%N eqn:E1; simpl; [|constructor].
    destruct (startsWith resourceUrl domain); simpl; [|constructor].
    destruct (shouldCrawl domain patterns resourceUrl) eqn:E3; constructor; [|constructor].
    simpl. by rewrite Hc.
Qed.

Lemma attributed_deliver_all url c0 ds c :
  attributed (shouldCrawl domain patterns) url c0 c ->
  attributed (shouldCrawl domain patterns) url c0 (deliver_all domain patterns ds c).
Proof.
  revert c. induction ds as [|d ds IH]; intros c H; simpl; [done|].
  apply IH. by apply attributed_deliver.
Qed.

Lemma attributed_for_each url page links c0 c :
  attributed (shouldCrawl domain patterns) url c0 c ->
  attributed (shouldCrawl domain patterns) url c0
    (snd (for_each links (enqueue_link domain patterns page) c)).
Proof.
  revert c. induction links as [|link links IH]; intros c H; simpl; [done|].
  unfold bind at 1. rewrite enqueue_link_eq.
  destruct (negb (Set_has (visited c) link) && shouldCrawl domain patterns link);
    apply IH; [|done].
  eapply attributed_same; [| | |exact H]; done.
Qed.

Lemma attributed_push_brokenLinks url c0 r c :
  attributed (shouldCrawl domain patterns) url c0 c ->
  attributed (shouldCrawl domain patterns) url c0 (push_brokenLinks r c).
Proof. by apply attributed_same. Qed.

Lemma attributed_record_effect url c0 f c :
  attributed (shouldCrawl domain patterns) url c0 c ->
  attributed (shouldCrawl domain patterns) url c0 (record_effect f c).
Proof. by apply attributed_same. Qed.

Ltac attributed_steps :=
  repeat first
    [ apply attributed_push_brokenLinks
    | apply attributed_record_effect
    | apply attributed_deliver_all
    | apply attributed_for_each ].

(** The records that the handlers append during the visit of [url] are
    records for [url]. *)
Lemma process_attributed url foundOn c :
  attributed (shouldCrawl domain patterns) url c
    (snd (process domain patterns browser url foundOn c)).
Proof.
  assert (Hbase : attributed (shouldCrawl domain patterns) url c (mark_visited url foundOn c)).
  { split; [done|]. exists [], []. simpl. rewrite !app_nil_r. by split_and!. }
  unfold process, try_catch, try_body, catch_body, page_goto, page_evaluate,
    sleep, response_status, bind, update, read, settle, ret, throw. simpl.
  destruct (goto_answer browser _) as [ds1 [[status|]|m]]; simpl;
    [|by attributed_steps..].
  destruct (status =? 404)%N, (400 <=? status)%N, (status <? 400)%N; simpl;
    try (by attributed_steps);
    destruct (evaluate_answer browser _) as [ds3 [hrefs|m]]; simpl;
    try (by attributed_steps);
    match goal with
    | |- context [for_each ?l ?f ?c0] =>
        let H := fresh in
        assert (H : attributed (shouldCrawl domain patterns) url c (snd (for_each l f c0)))
          by (by attributed_steps);
        destruct (for_each l f c0) as [[[]|m] c9]; simpl in *;
        by attributed_steps
    end.
Qed.

End Attribution.

(** ** The result lists *)

Section Records.

Variable domain : string.
Variable patterns : list string.
Variable browser : Browser.

Lemma new_entries_elem seen url links e :
  e ∈ new_entries domain patterns seen url links ->
  fe_foundOn e = url /\ (fe_url e ∈ links) /\ (fe_url e ∉ seen) /\
  shouldCrawl domain patterns (fe_url e) = true.
Proof.
  induction links as [|l links IH]; simpl; [by intros ?%elem_of_nil|].
  destruct (negb (Set_has seen l) && shouldCrawl domain patterns l) eqn:E.
  - intros [->|He]%elem_of_cons.
    + apply andb_prop in E as [Hseen Hscope]. simpl. split_and!; [done|by left| |done].
      apply negb_true_iff in Hseen. by apply bool_decide_eq_false in Hseen.
    + destruct (IH He) as (?&?&?&?). split_and!; [done|by right|done|done].
  - intros He. destruct (IH He) as (?&?&?&?). split_and!; [done|by right|done|done].
Qed.

Lemma new_entries_length seen url links :
  length (new_entries domain patterns seen url links) <= length links.
Proof.
  induction links as [|l links IH]; simpl; [done|].
  destruct (negb (Set_has seen l) && shouldCrawl domain patterns l); simpl; lia.
Qed.

(** The records and the queue entries that one visit adds. *)
Lemma process_records url foundOn c :
  let c' := snd (process domain patterns browser url foundOn c) in
  exists new bl,
    toVisit c' = toVisit c ++ new /\
    pushed c' = pushed c ++ new /\
    brokenLinks c' = brokenLinks c ++ bl /\
    Forall (broken_record_of url foundOn) bl /\
    (bl = [] \/ new = []) /\
    (new = [] \/ exists fx hrefs,
        snd (evaluate_answer browser fx) = Fulfilled hrefs /\
        new = new_entries domain patterns (Set_add (visited c) url) url
                (extract_links hrefs)).
Proof.
  destruct (process_result domain patterns browser url foundOn c) as (_&_&_&_&_&H).
  revert H. simpl. unfold extraction.
  assert (Herr : forall m, Forall (broken_record_of url foundOn)
                             [mkBrokenLink url foundOn StatusError m]).
  { intros m. constructor; [|constructor]. by split_and!. }
  destruct (navigation browser url c) as [[status|]|m].
  - destruct (N.ltb_spec status 400) as [Hlt|Hge].
    + destruct (evaluate_answer browser _) as [ds hrefs] eqn:E. simpl.
      destruct hrefs as [hrefs|m]; intros (Hb&_&Ht&Hp).
      * exists (new_entries domain patterns (Set_add (visited c) url) url (extract_links hrefs)),
          [].
        rewrite (app_nil_r (brokenLinks c)).
        split_and!; [exact Ht|exact Hp|exact Hb|constructor|by left|].
        right. eexists _, hrefs. split; [|done]. by rewrite E.
      * exists [], [mkBrokenLink url foundOn StatusError m]. rewrite !app_nil_r.
        split_and!; [done|done|done|apply Herr|by right|by left].
    + intros (Hb&_&Ht&Hp).
      exists [], [mkBrokenLink url foundOn (HttpStatus status)
                    (if (status =? 404)%N then "Page not found" else http_error_text status)].
      rewrite !app_nil_r.
      split_and!; [done|done|exact Hb| |by right|by left].
      constructor; [|constructor]. split_and!; [done|done|]. simpl. by intros n [= <-].
  - intros (Hb&_&Ht&Hp). exists [], [mkBrokenLink url foundOn StatusError null_status_message].
    rewrite !app_nil_r. split_and!; [done|done|done|apply Herr|by right|by left].
  - intros (Hb&_&Ht&Hp). exists [], [mkBrokenLink url foundOn StatusError m].
    rewrite !app_nil_r. split_and!; [done|done|done|apply Herr|by right|by left].
Qed.

Lemma records_inv_initial startUrl :
  records_inv (shouldCrawl domain patterns) startUrl (initial startUrl).
Proof.
  split; simpl; try done.
  - by intros e ?%elem_of_nil.
  - by left.
Qed.

Lemma records_inv_skip startUrl c e q :
  records_inv (shouldCrawl domain patterns) startUrl c ->
  records_inv (shouldCrawl domain patterns) startUrl (shift_toVisit e q c).
Proof. by intros []. Qed.

Lemma records_inv_process startUrl c e q :
  crawl_inv (shouldCrawl domain patterns) startUrl c ->
  records_inv (shouldCrawl domain patterns) startUrl c ->
  toVisit c = e :: q ->
  fe_url e ∉ visited c ->
  records_inv (shouldCrawl domain patterns) startUrl
    (snd (process domain patterns browser (fe_url e) (fe_foundOn e) (shift_toVisit e q c))).
Proof.
  intros [] [] Hq Hnew.
  destruct (process_summary domain patterns browser (fe_url e) (fe_foundOn e)
              (shift_toVisit e q c)) as (Hv & Hs & _).
  destruct (process_attributed domain patterns browser (fe_url e) (fe_foundOn e)
              (shift_toVisit e q c))
    as (_ & es & rs & Hes & Hrs & Hes_all & Hrs_all).
  destruct (process_records (fe_url e) (fe_foundOn e) (shift_toVisit e q c))
    as (new & bl & _ & Hpu & Hbl & Hbl_all & Hexcl & Hfrom).
  simpl in *.
  assert (Hadd : Set_add (visited c) (fe_url e) = visited c ++ [fe_url e]).
  { unfold Set_add, Set_has. by rewrite bool_decide_eq_false_2. }
  rewrite Hadd in Hv, Hfrom. clear Hadd.
  assert (Hin : fe_url e ∈ visited c ++ [fe_url e]).
  { apply elem_of_app. right. by left. }
  assert (Hold : forall u, u ∈ visited c -> u ∈ visited c ++ [fe_url e]).
  { intros u Hu. apply elem_of_app. by left. }
  destruct inv_pushed0 as (rest & Hrest & Hall).
  split.
  - rewrite Hv, Hes. intros Hempty. apply Forall_app. split.
    + eapply Forall_impl; [apply rinv_errors0|]; [|by intros r ?%Hold].
      intros Hc. apply Hempty. by apply Hold.
    + eapply Forall_impl; [exact Hes_all|]. intros r Hr. simpl in Hr.
      rewrite Hr; [done|]. intros Heq. apply Hempty. by rewrite <- Heq.
  - rewrite Hv, Hrs. apply Forall_app. split.
    + eapply Forall_impl; [exact rinv_resources0|]. intros r (?&?&?).
      split_and!; [by apply Hold|done|done].
    + eapply Forall_impl; [exact Hrs_all|]. intros r (->&?&?). by split_and!.
  - rewrite Hv, Hs, Hbl. apply Forall_app. split.
    + eapply Forall_impl; [exact rinv_broken0|]. intros r (Hr&Hsrc&Hst).
      split_and!; [by apply Hold| |done].
      rewrite lookup_insert_ne; [done|]. intros Heq. apply Hnew. by rewrite Heq.
    + eapply Forall_impl; [exact Hbl_all|]. intros r (Hu&Hf&Hst).
      rewrite Hu, Hf, lookup_insert_eq. by split_and!.
  - rewrite Hpu, Hrest, Hbl. simpl. rewrite Hrest in rinv_links0. simpl in rinv_links0.
    assert (Hfresh : fe_url e ∉ bl_url <$> brokenLinks c).
    { intros (r & Hr & Hrin)%list_elem_of_fmap.
      rewrite Forall_forall in rinv_broken0. destruct (rinv_broken0 r Hrin) as (Hvis&_).
      apply Hnew. by rewrite Hr. }
    intros e0 [He0|He0]%elem_of_app.
    + destruct (rinv_links0 e0 He0) as [Hk Hnb]. split; [done|].
      rewrite fmap_app. intros [?|Hbad]%elem_of_app; [done|].
      apply list_elem_of_fmap in Hbad as (r & Hr & Hrin).
      rewrite Forall_forall in Hbl_all. destruct (Hbl_all r Hrin) as (Hu&_).
      apply Hnew. rewrite <- Hu, <- Hr. by apply Hall.
    + destruct Hexcl as [-> | ->]; [|by apply elem_of_nil in He0].
      destruct Hfrom as [-> | (fx & hrefs & _ & ->)]; [by apply elem_of_nil in He0|].
      apply new_entries_elem in He0 as (Hf & Hl & _). rewrite app_nil_r, Hf.
      split; [|done].
      unfold extract_links in Hl. apply list_elem_of_filter in Hl as [Hk _].
      by apply Is_true_true in Hk.
  - rewrite Hv. destruct rinv_first0 as [[Hnil Hone]|[l Hl]].
    + right. exists []. rewrite Hnil. simpl.
      rewrite inv_fifo0, Hq in Hone.
      destruct (popped c) as [|p ps]; simpl in Hone.
      * by injection Hone as ->.
      * injection Hone as _ Hone. by destruct ps.
    + right. exists (l ++ [fe_url e]). by rewrite Hl.
Qed.

Lemma records_inv_reachable startUrl c :
  reachable domain patterns browser startUrl c ->
  records_inv (shouldCrawl domain patterns) startUrl c.
Proof.
  induction 1 as [|c c' Hreach IH Hstep]; [apply records_inv_initial|].
  apply crawl_inv_reachable in Hreach.
  unfold iteration in Hstep. destruct (toVisit c) as [|e q] eqn:Hq; [done|].
  simpl in Hstep.
  destruct (Set_has (visited c) (fe_url e)
            || negb (shouldCrawl domain patterns (fe_url e))) eqn:Hskip;
    injection Hstep as <-.
  - by apply records_inv_skip.
  - apply orb_false_elim in Hskip as [Hhas _].
    apply records_inv_process; [done|done|done|].
    by apply bool_decide_eq_false in Hhas.
Qed.

End Records.

(** ** What the crawl records, and what it never records *)

Lemma iteration_None domain patterns browser c :
  iteration domain patterns browser c = None -> toVisit c = [].
Proof.
  unfold iteration. destruct (toVisit c) as [|e q]; [done|]. simpl.
  by destruct (Set_has (visited c) (fe_url e)
               || negb (shouldCrawl domain patterns (fe_url e))).
Qed.

Lemma loop_reachable domain patterns browser startUrl fuel c0 c :
  reachable domain patterns browser startUrl c0 ->
  loop domain patterns browser fuel c0 = Some c ->
  reachable domain patterns browser startUrl c /\ toVisit c = [].
Proof.
  revert c0. induction fuel as [|fuel IH]; intros c0 Hc0; simpl.
  - destruct (iteration domain patterns browser c0) eqn:E; [done|].
    intros [= <-]. split; [done|]. by eapply iteration_None.
  - destruct (iteration domain patterns browser c0) as [c1|] eqn:E.
    + apply IH. by eapply reachable_iteration.
    + intros [= <-]. split; [done|]. by eapply iteration_None.
Qed.

Lemma keep_href_true href :
  keep_href href = true ->
  href <> EmptyString /\ includes href "#" = false /\ includes href "javascript:" = false.
Proof.
  unfold keep_href. intros [[H1 H2]%andb_prop H3]%andb_prop.
  apply negb_true_iff in H2, H3. split_and!; [|done|done]. by intros ->.
Qed.

Section Recorded.

Variable domain : string.
Variable patterns : list string.
Variable browser : Browser.

(** The handlers never touch the crawl itself: whatever events arrive,
    the visited set, the queue, the sources, the broken links and the
    current page stay as they are, and the two error lists only get longer
    at the end. *)
Theorem handlers_only_append ds c :
  same_crawl c (deliver_all domain patterns ds c) /\
  (exists es, errorsFound (deliver_all domain patterns ds c) = errorsFound c ++ es) /\
  (exists rs, resourceErrors (deliver_all domain patterns ds c) = resourceErrors c ++ rs).
Proof.
  split; [apply deliver_all_same|].
  destruct (attributed_deliver_all domain patterns (currentPageUrl c) c ds c
              (attributed_refl domain patterns _ c eq_refl))
    as (_ & es & rs & He & Hr & _).
  split; [by exists es|by exists rs].
Qed.

(** Every record that the handlers append during the visit of a page is
    attributed to that page: console errors and uncaught exceptions carry
    its URL, missing resources carry it as [pageUrl], whatever the browser
    reports as its own URL. *)
Theorem visit_attribution url foundOn c :
  url <> EmptyString ->
  exists es rs,
    errorsFound (snd (process domain patterns browser url foundOn c))
      = errorsFound c ++ es /\
    resourceErrors (snd (process domain patterns browser url foundOn c))
      = resourceErrors c ++ rs /\
    Forall (fun r => ce_url r = url) es /\
    Forall (fun r => re_pageUrl r = url) rs.
Proof.
  intros Hne.
  destruct (process_attributed domain patterns browser url foundOn c)
    as (_ & es & rs & He & Hr & Hes & Hrs).
  exists es, rs. split_and!; [done|done| |].
  - eapply Forall_impl; [exact Hes|]. intros r Hr'. by apply Hr'.
  - eapply Forall_impl; [exact Hrs|]. by intros r [? _].
Qed.

(** Throughout a crawl whose origin is not the empty string, every
    console record and every resource record belongs to a page that was
    visited; a resource record always has status 404 and a URL that
    [shouldCrawl] accepts. *)
Theorem records_belong_to_visited_pages startUrl c :
  domain <> EmptyString ->
  reachable domain patterns browser startUrl c ->
  Forall (fun r => ce_url r ∈ visited c) (errorsFound c) /\
  Forall (fun r => re_pageUrl r ∈ visited c /\ re_status r = 404%N /\
                   shouldCrawl domain patterns (re_resourceUrl r) = true)
    (resourceErrors c).
Proof.
  intros Hdom Hreach.
  destruct (records_inv_reachable domain patterns browser startUrl c Hreach).
  destruct (crawl_inv_reachable domain patterns browser startUrl c Hreach).
  split; [|done]. apply rinv_errors0. intros Hempty.
  apply inv_scope0, shouldCrawl_true in Hempty as [Hstart _].
  by destruct domain.
Qed.

(** Every broken-link record is for a visited page, carries the source
    stored for that page in [urlSources], and never has a status below
    400; there are never more broken links than visited pages. *)
Theorem broken_links_well_formed startUrl c :
  reachable domain patterns browser startUrl c ->
  Forall (fun r => bl_url r ∈ visited c /\
                   urlSources c !! bl_url r = Some (bl_foundOn r) /\
                   forall n, bl_status r = HttpStatus n -> (400 <= n)%N)
    (brokenLinks c) /\
  length (brokenLinks c) <= length (visited c).
Proof.
  intros Hreach.
  destruct (records_inv_reachable domain patterns browser startUrl c Hreach).
  destruct (crawl_inv_reachable domain patterns browser startUrl c Hreach).
  split; [done|]. apply sublist_length in inv_broken0.
  by rewrite length_fmap in inv_broken0.
Qed.

(** A page recorded as the source of a URL was visited and is not itself
    a broken link: links are only taken from pages that loaded.  The one
    source that is no page is ['START'], for the start URL. *)
Theorem sources_loaded startUrl c u f :
  reachable domain patterns browser startUrl c ->
  urlSources c !! u = Some f ->
  (u = startUrl /\ f = "START") \/
  (f ∈ visited c /\ f ∉ bl_url <$> brokenLinks c).
Proof.
  intros Hreach Hu.
  destruct (records_inv_reachable domain patterns browser startUrl c Hreach).
  destruct (crawl_inv_reachable domain patterns browser startUrl c Hreach).
  assert (Hvis : u ∈ visited c) by (apply inv_keys0; by rewrite Hu).
  destruct (inv_sources0 u Hvis) as [_ Hfirst]. rewrite Hu in Hfirst.
  symmetry in Hfirst. apply first_discovery_Some in Hfirst as (e & He & Hurl & Hf).
  destruct inv_pushed0 as (rest & Hrest & Hall).
  rewrite Hrest in He, rinv_links0. simpl in rinv_links0.
  apply elem_of_cons in He as [->|He].
  - left. simpl in *. by subst.
  - right. subst f. split; [by apply Hall|by apply rinv_links0].
Qed.

(** Apart from the start URL, no URL that is empty, contains [#] or
    contains [javascript:] is ever queued, and so none is ever visited. *)
Theorem no_anchor_or_script_links startUrl c :
  reachable domain patterns browser startUrl c ->
  (forall e, e ∈ tail (pushed c) ->
     fe_url e <> EmptyString /\ includes (fe_url e) "#" = false /\
     includes (fe_url e) "javascript:" = false) /\
  (forall u, u ∈ visited c ->
     u = startUrl \/
     (includes u "#" = false /\ includes u "javascript:" = false)).
Proof.
  intros Hreach.
  destruct (records_inv_reachable domain patterns browser startUrl c Hreach).
  destruct (crawl_inv_reachable domain patterns browser startUrl c Hreach).
  split.
  - intros e He. apply keep_href_true. by apply rinv_links0.
  - intros u Hu. destruct (inv_sources0 u Hu) as [[f Hf] Hfirst]. rewrite Hf in Hfirst.
    symmetry in Hfirst. apply first_discovery_Some in Hfirst as (e & He & Hurl & _).
    destruct inv_pushed0 as (rest & Hrest & _).
    rewrite Hrest in He, rinv_links0. simpl in rinv_links0.
    apply elem_of_cons in He as [->|He]; [left; by subst|right].
    destruct (rinv_links0 e He) as [Hk _]. apply keep_href_true in Hk as (_&?&?).
    by subst u.
Qed.

(** The first page a crawl visits is the start URL: the visited pages
    are none, or begin with it. *)
Theorem visits_begin_at_start startUrl c :
  reachable domain patterns browser startUrl c ->
  visited c = [] \/ exists l, visited c = startUrl :: l.
Proof.
  intros Hreach.
  destruct (records_inv_reachable domain patterns browser startUrl c Hreach).
  destruct rinv_first0 as [[? _]|?]; [by left|by right].
Qed.

(** When the crawl has ended, nothing that was found is left over: every
    URL ever queued that [shouldCrawl] accepts has been visited. *)
Theorem finished_crawl_is_complete startUrl fuel c :
  loop domain patterns browser fuel (initial startUrl) = Some c ->
  toVisit c = [] /\
  forall e, e ∈ pushed c ->
    shouldCrawl domain patterns (fe_url e) = true -> fe_url e ∈ visited c.
Proof.
  intros Hloop.
  destruct (loop_reachable domain patterns browser startUrl fuel _ c
              (reachable_initial _ _ _ _) Hloop) as [Hreach Hq].
  destruct (crawl_inv_reachable domain patterns browser startUrl c Hreach).
  split; [done|]. rewrite inv_fifo0, Hq, app_nil_r. exact inv_popped0.
Qed.

End Recorded.

(** ** The scope test on the start URL and on neighbouring projects *)

Lemma append_assoc_string (a b c : string) : (a +:+ b) +:+ c = a +:+ (b +:+ c).
Proof. induction a as [|x a IH]; simpl; [done|]. by rewrite IH. Qed.

Lemma includes_unfold s p :
  includes s p =
  if startsWith s p then true
  else match s with
       | EmptyString => false
       | String _ s' => includes s' p
       end.
Proof. by destruct s. Qed.

Lemma startsWith_inv s p : startsWith s p = true -> exists post, s = p +:+ post.
Proof.
  revert s. induction p as [|a p IH]; intros s; simpl.
  - intros _. by exists s.
  - destruct s as [|b s]; [done|].
    destruct (Ascii.eqb_spec a b) as [->|]; [|done].
    intros [post ->]%IH. by exists post.
Qed.

Lemma includes_app pre p post : includes (pre +:+ p +:+ post) p = true.
Proof.
  induction pre as [|a pre IH]; rewrite includes_unfold; simpl.
  - by rewrite startsWith_app.
  - rewrite IH. by destruct (startsWith _ _).
Qed.

Lemma includes_inv s p : includes s p = true -> exists pre post, s = pre +:+ p +:+ post.
Proof.
  induction s as [|a s IH]; rewrite includes_unfold.
  - destruct (startsWith EmptyString p) eqn:E; [|done].
    intros _. apply startsWith_inv in E as [post ->]. by exists EmptyString, post.
  - destruct (startsWith (String a s) p) eqn:E.
    + intros _. apply startsWith_inv in E as [post ->]. by exists EmptyString, post.
    + intros (pre & post & ->)%IH. by exists (String a pre), post.
Qed.

Lemma includes_longer url p suffix :
  includes url (p +:+ suffix) = true -> includes url p = true.
Proof.
  intros (pre & post & ->)%includes_inv.
  rewrite append_assoc_string. apply includes_app.
Qed.

Lemma contextMatch_includes s tok :
  contextMatch s = Some tok -> includes s ("context:" +:+ tok) = true.
Proof.
  induction s as [|c s IH]; intros H.
  - done.
  - cbn [contextMatch] in H.
    destruct (match_here (String c s)) as [t|] eqn:E.
    + injection H as ->. apply match_here_Some in E as (pre & rest & Hs & Hlen & _).
      destruct pre; [|done]. rewrite Hs.
      rewrite <- (append_assoc_string "context:" tok rest).
      apply (includes_app EmptyString ("context:" +:+ tok) rest).
    + rewrite includes_unfold, (IH H). by destruct (startsWith _ _).
Qed.

(** The start URL always passes its own pattern test, so [shouldCrawl]
    accepts it exactly when its text begins with the origin. *)
Theorem start_url_matches_own_patterns domain startUrl :
  shouldCrawl domain (allowedPatterns startUrl) startUrl = startsWith startUrl domain.
Proof.
  unfold shouldCrawl, allowedPatterns, projectId, some_includes.
  destruct (startsWith startUrl domain); [|done]. simpl.
  destruct (contextMatch startUrl) as [tok|] eqn:E; [|done].
  pose proof (contextMatch_includes _ _ E) as H. simpl in H |- *. by rewrite H.
Qed.

(** The patterns are looked for anywhere in the URL and may be followed
    by anything: a URL of the origin that contains [context:] or [o:]
    followed by an identifier that merely begins with the start URL's
    identifier is accepted as well. *)
Theorem scope_is_by_substring domain startUrl tok suffix url :
  projectId startUrl = Some tok ->
  startsWith url domain = true ->
  includes url ("context:" +:+ tok +:+ suffix) = true \/
  includes url ("o:" +:+ tok +:+ suffix) = true ->
  shouldCrawl domain (allowedPatterns startUrl) url = true.
Proof.
  intros Hid Hstart Hinc. unfold shouldCrawl, allowedPatterns, some_includes.
  rewrite Hid, Hstart.
  destruct Hinc as [H|H].
  - pose proof (includes_longer url ("context:" +:+ tok) suffix) as H'.
    rewrite append_assoc_string in H'. specialize (H' H).
    simpl in H' |- *. by rewrite H'.
  - pose proof (includes_longer url ("o:" +:+ tok) suffix) as H'.
    rewrite append_assoc_string in H'. specialize (H' H).
    simpl in H' |- *. rewrite H'. by rewrite orb_true_r.
Qed.

(** When [shouldCrawl] rejects the start URL, the loop ends after taking
    it out of the queue: no page is visited and every result is empty. *)
Theorem start_url_out_of_scope domain patterns browser startUrl fuel :
  shouldCrawl domain patterns startUrl = false ->
  results_of <$> loop domain patterns browser (S fuel) (initial startUrl)
  = Some (mkResults [] [] ∅ [] []).
Proof.
  intros H. simpl. unfold iteration at 1. simpl. rewrite H. simpl.
  by destruct fuel.
Qed.

Lemma scope_is_by_substring_witness :
  projectId demo_seed = Some "proj" /\
  startsWith "https://x.test/context:project2/page" demo_domain = true /\
  (includes "https://x.test/context:project2/page" ("context:" +:+ "proj" +:+ "ect2") = true \/
   includes "https://x.test/context:project2/page" ("o:" +:+ "proj" +:+ "ect2") = true) /\
  shouldCrawl demo_domain (allowedPatterns demo_seed)
    "https://x.test/context:project2/page" = true.
Proof.
  assert (H1 : projectId demo_seed = Some "proj") by reflexivity.
  assert (H2 : startsWith "https://x.test/context:project2/page" demo_domain = true)
    by reflexivity.
  assert (H3 : includes "https://x.test/context:project2/page"
                 ("context:" +:+ "proj" +:+ "ect2") = true \/
               includes "https://x.test/context:project2/page"
                 ("o:" +:+ "proj" +:+ "ect2") = true) by (left; reflexivity).
  split; [exact H1|]. split; [exact H2|]. split; [exact H3|].
  exact (scope_is_by_substring demo_domain demo_seed "proj" "ect2"
           "https://x.test/context:project2/page" H1 H2 H3).
Defined.

Lemma start_url_out_of_scope_witness :
  shouldCrawl demo_domain demo_patterns "https://X.test/context:proj" = false /\
  results_of <$> loop demo_domain demo_patterns (serve demo_site) 1
                   (initial "https://X.test/context:proj")
  = Some (mkResults [] [] ∅ [] []).
Proof.
  assert (H : shouldCrawl demo_domain demo_patterns "https://X.test/context:proj" = false)
    by reflexivity.
  split; [exact H|].
  exact (start_url_out_of_scope demo_domain demo_patterns (serve demo_site)
           "https://X.test/context:proj" 0 H).
Defined.

(** ** Growth and termination *)

Section Progress.

Variable domain : string.
Variable patterns : list string.
Variable browser : Browser.

(** An iteration never takes anything back: the visited pages and the
    three record lists are extended at the end, and no stored source is
    removed or overwritten. *)
Theorem results_only_grow startUrl c c' :
  reachable domain patterns browser startUrl c ->
  iteration domain patterns browser c = Some c' ->
  visited c `prefix_of` visited c' /\
  errorsFound c `prefix_of` errorsFound c' /\
  resourceErrors c `prefix_of` resourceErrors c' /\
  brokenLinks c `prefix_of` brokenLinks c' /\
  urlSources c ⊆ urlSources c'.
Proof.
  intros Hreach. apply crawl_inv_reachable in Hreach as [].
  unfold iteration. destruct (toVisit c) as [|e q] eqn:Hq; [done|]. simpl.
  destruct (Set_has (visited c) (fe_url e)
            || negb (shouldCrawl domain patterns (fe_url e))) eqn:Hskip;
    intros [= <-]; simpl.
  - by split_and!.
  - apply orb_false_elim in Hskip as [Hhas _]. apply bool_decide_eq_false in Hhas.
    destruct (process_summary domain patterns browser (fe_url e) (fe_foundOn e)
                (shift_toVisit e q c))
      as (Hv & Hs & _ & new & bl & fx & _ & _ & _ & Hb & _).
    destruct (process_attributed domain patterns browser (fe_url e) (fe_foundOn e)
                (shift_toVisit e q c)) as (_ & es & rs & He & Hr & _).
    simpl in *. rewrite Hv, Hs, Hb, He, Hr.
    split_and!; [|by exists es|by exists rs|by exists bl|].
    + unfold Set_add. destruct (Set_has (visited c) (fe_url e)); [done|].
      by exists [fe_url e].
    + apply insert_subseteq. apply eq_None_not_Some. intros Hsome.
      by apply Hhas, inv_keys0.
Qed.

Lemma iteration_popped c c' :
  iteration domain patterns browser c = Some c' ->
  length (popped c') = S (length (popped c)).
Proof.
  unfold iteration. destruct (toVisit c) as [|e q]; [done|]. simpl.
  destruct (Set_has (visited c) (fe_url e)
            || negb (shouldCrawl domain patterns (fe_url e)));
    intros [= <-].
  - simpl. rewrite length_app. simpl. lia.
  - destruct (process_summary domain patterns browser (fe_url e) (fe_foundOn e)
                (shift_toVisit e q c)) as (_ & _ & Hp & _).
    rewrite Hp. simpl. rewrite length_app. simpl. lia.
Qed.

Lemma finite_site_bound startUrl pages width c :
  finite_site (shouldCrawl domain patterns) browser pages width ->
  reachable domain patterns browser startUrl c ->
  (forall e, e ∈ pushed c -> fe_url e ∈ startUrl :: pages) /\
  length (pushed c) <= 1 + width * length (visited c).
Proof.
  intros Hsite. induction 1 as [|c c' Hreach [IH1 IH2] Hstep].
  - simpl. split; [|lia]. intros e He%list_elem_of_singleton. subst e. by left.
  - apply crawl_inv_reachable in Hreach as [].
    unfold iteration in Hstep. destruct (toVisit c) as [|e q] eqn:Hq; [done|].
    simpl in Hstep.
    destruct (Set_has (visited c) (fe_url e)
              || negb (shouldCrawl domain patterns (fe_url e))) eqn:Hskip;
      injection Hstep as <-; [done|].
    apply orb_false_elim in Hskip as [Hhas _]. apply bool_decide_eq_false in Hhas.
    destruct (process_summary domain patterns browser (fe_url e) (fe_foundOn e)
                (shift_toVisit e q c)) as (Hv & _).
    destruct (process_records domain patterns browser (fe_url e) (fe_foundOn e)
                (shift_toVisit e q c)) as (new & bl & _ & Hpu & _ & _ & _ & Hfrom).
    simpl in *. rewrite Hv, Hpu.
    assert (Hadd : Set_add (visited c) (fe_url e) = visited c ++ [fe_url e]).
    { unfold Set_add, Set_has. by rewrite bool_decide_eq_false_2. }
    rewrite Hadd in *. rewrite !length_app. simpl.
    replace (length (visited c) + 1) with (S (length (visited c))) by lia.
    rewrite Nat.mul_succ_r.
    destruct Hfrom as [-> | (fx & hrefs & Hev & ->)].
    + rewrite app_nil_r. split; [done|]. simpl. lia.
    + destruct (Hsite fx hrefs Hev) as [Hwidth Hpages]. split.
      * intros e0 [He0|He0]%elem_of_app; [by apply IH1|].
        apply new_entries_elem in He0 as (_ & Hl & _ & Hsc).
        right. by apply Hpages.
      * pose proof (new_entries_length domain patterns
                      (visited c ++ [fe_url e]) (fe_url e) (extract_links hrefs)).
        lia.
Qed.

Lemma loop_with_bound startUrl bound :
  (forall c, reachable domain patterns browser startUrl c -> length (popped c) <= bound) ->
  forall fuel c,
    reachable domain patterns browser startUrl c ->
    bound <= length (popped c) + fuel ->
    exists c', loop domain patterns browser fuel c = Some c'.
Proof.
  intros Hbound. induction fuel as [|fuel IH]; intros c Hc Hfuel; simpl.
  - destruct (iteration domain patterns browser c) as [c1|] eqn:E; [|by exists c].
    pose proof (iteration_popped _ _ E) as Hp.
    pose proof (Hbound c1 (reachable_iteration _ _ _ _ _ _ Hc E)). lia.
  - destruct (iteration domain patterns browser c) as [c1|] eqn:E; [|by exists c].
    pose proof (iteration_popped _ _ E) as Hp.
    apply IH; [by eapply reachable_iteration|lia].
Qed.

(** On a site with finitely many pages the crawl ends: when every page
    lists at most [width] links and the accepted ones are among [pages],
    the loop empties the queue within [1 + width * (1 + length pages)]
    iterations. *)
Theorem crawl_of_finite_site_ends startUrl pages width :
  finite_site (shouldCrawl domain patterns) browser pages width ->
  exists c,
    loop domain patterns browser (1 + width * S (length pages)) (initial startUrl) = Some c /\
    toVisit c = [].
Proof.
  intros Hsite.
  assert (Hbound : forall c, reachable domain patterns browser startUrl c ->
            length (popped c) <= 1 + width * S (length pages)).
  { intros c Hreach.
    destruct (finite_site_bound startUrl pages width c Hsite Hreach) as [Hin Hlen].
    destruct (crawl_inv_reachable domain patterns browser startUrl c Hreach).
    assert (Hvis : length (visited c) <= S (length pages)).
    { change (S (length pages)) with (length (startUrl :: pages)).
      apply submseteq_length, NoDup_submseteq; [done|].
      intros u Hu. destruct (inv_sources0 u Hu) as [[f Hf] Hfirst].
      rewrite Hf in Hfirst. symmetry in Hfirst.
      apply first_discovery_Some in Hfirst as (e & He & <- & _). by apply Hin. }
    assert (Hpop : length (popped c) <= length (pushed c)).
    { rewrite inv_fifo0, length_app. lia. }
    assert (width * length (visited c) <= width * S (length pages))
      by (by apply Nat.mul_le_mono_l).
    lia. }
  destruct (loop_with_bound startUrl _ Hbound (1 + width * S (length pages))
              (initial startUrl) (reachable_initial _ _ _ _)) as [c Hc].
  { simpl. lia. }
  exists c. split; [done|].
  by destruct (loop_reachable domain patterns browser startUrl _ _ c
                 (reachable_initial _ _ _ _) Hc).
Qed.

End Progress.

(** ** The report *)

Section Reported.

Variable domain : string.
Variable patterns : list string.
Variable browser : Browser.

(** In the report of a crawl the number of pages checked is the number
    of navigations made and the number of entries of [urlSources], and
    the number of broken links does not exceed it. *)
Theorem report_counts_of_crawl startUrl c now :
  reachable domain patterns browser startUrl c ->
  pagesChecked (rp_summary (make_report (results_of c) startUrl now))
    = length (gotos (effects c)) /\
  pagesChecked (rp_summary (make_report (results_of c) startUrl now))
    = size (rp_urlSources (make_report (results_of c) startUrl now)) /\
  brokenLinksFound (rp_summary (make_report (results_of c) startUrl now))
    <= pagesChecked (rp_summary (make_report (results_of c) startUrl now)).
Proof.
  intros Hreach. simpl.
  destruct (crawl_inv_reachable domain patterns browser startUrl c Hreach).
  split_and!.
  - by rewrite inv_gotos0.
  - assert (Hdom : dom (urlSources c) = list_to_set (visited c)).
    { apply set_eq. intros u. rewrite elem_of_dom, elem_of_list_to_set. split.
      - apply inv_keys0.
      - intros Hu. by destruct (inv_sources0 u Hu). }
    by rewrite <- size_dom, Hdom, size_list_to_set.
  - apply sublist_length in inv_broken0. by rewrite length_fmap in inv_broken0.
Qed.

(** The text report of a crawl whose origin is not the empty string
    shows, for every visited page, the source stored for it: the fallback
    ['UNKNOWN'] is never used. *)
Theorem report_shows_sources startUrl c i u :
  domain <> EmptyString ->
  reachable domain patterns browser startUrl c ->
  visited c !! i = Some u ->
  exists f,
    urlSources c !! u = Some f /\
    visited_page_text (results_of c) i u =
      decimal (i + 1) +:+ ". " +:+ u +:+ newline +:+
      "   Found on: " +:+ f +:+ newline.
Proof.
  intros Hdom Hreach Hi.
  destruct (crawl_inv_reachable domain patterns browser startUrl c Hreach).
  assert (Hu : u ∈ visited c) by (apply list_elem_of_lookup; by exists i).
  destruct (inv_sources0 u Hu) as [[f Hf] Hfirst]. exists f. split; [done|].
  unfold visited_page_text, report_foundOn. simpl. rewrite Hf.
  assert (Hne : f <> EmptyString).
  { rewrite Hf in Hfirst. symmetry in Hfirst.
    apply first_discovery_Some in Hfirst as (e & He & _ & <-).
    destruct inv_pushed0 as (rest & Hrest & Hall). rewrite Hrest in He.
    apply elem_of_cons in He as [->|He]; [done|].
    destruct (Hall e He) as [_ Hvis].
    apply inv_scope0, shouldCrawl_true in Hvis as [Hstart _].
    intros Heq. rewrite Heq in Hstart. by destruct domain. }
  unfold or_else. by destruct f.
Qed.

End Reported.

Lemma includes_char_app c a b :
  includes (a +:+ b) (String c EmptyString)
  = includes a (String c EmptyString) || includes b (String c EmptyString).
Proof.
  induction a as [|x a IH]; [done|].
  rewrite (includes_unfold (String x a)), (includes_unfold (String x a +:+ b)).
  cbn [String.append startsWith]. rewrite IH.
  by destruct (Ascii.eqb c x).
Qed.

(** The stamp in the names of the report files is the date with every
    [:] and every [.] replaced by [-], character by character: it has the
    length of the date, agrees with it at every other position, and
    contains neither [:] nor [.]; so the two file names contain no [:],
    and no [.] before the one of the extension. *)
Theorem file_stamp_is_clean iso :
  String.length (file_stamp iso) = String.length iso /\
  includes (file_stamp iso) ":" = false /\
  includes (file_stamp iso) "." = false /\
  (forall i,
     String.get i (file_stamp iso) =
     (fun c => if (Ascii.eqb c ":" || Ascii.eqb c ".")%char then "-"%char else c)
       <$> String.get i iso) /\
  includes (reportFileName (file_stamp iso)) ":" = false /\
  includes (txtFileName (file_stamp iso)) ":" = false /\
  includes ("report-" +:+ file_stamp iso) "." = false.
Proof.
  assert (Hlen : String.length (file_stamp iso) = String.length iso).
  { induction iso as [|c s IH]; [done|]. simpl. by rewrite IH. }
  assert (Hcolon : includes (file_stamp iso) ":" = false).
  { clear. induction iso as [|c s IH]; [done|].
    rewrite includes_unfold. cbn [file_stamp startsWith]. rewrite IH.
    destruct (Ascii.eqb_spec c ":") as [->|Hc]; [done|].
    destruct (Ascii.eqb_spec c ".") as [->|Hd]; [done|]. cbn [orb].
    by destruct (Ascii.eqb_spec ":" c) as [Heq|]; [destruct Hc|]. }
  assert (Hdot : includes (file_stamp iso) "." = false).
  { clear. induction iso as [|c s IH]; [done|].
    rewrite includes_unfold. cbn [file_stamp startsWith]. rewrite IH.
    destruct (Ascii.eqb_spec c ":") as [->|Hc]; [done|].
    destruct (Ascii.eqb_spec c ".") as [->|Hd]; [done|]. cbn [orb].
    by destruct (Ascii.eqb_spec "." c) as [Heq|]; [destruct Hd|]. }
  split_and!; [done|done|done| | | |].
  - clear. induction iso as [|c s IH]; intros i; [by destruct i|].
    destruct i as [|i]; [done|]. cbn [file_stamp String.get]. apply IH.
  - unfold reportFileName. by rewrite !includes_char_app, Hcolon.
  - unfold txtFileName. by rewrite !includes_char_app, Hcolon.
  - by rewrite includes_char_app, Hdot.
Qed.

(** ** The further properties on the sample crawls *)

Lemma noisy_final_reachable :
  reachable demo_domain demo_patterns (serve (fun _ => noisy_page)) demo_seed noisy_final.
Proof.
  apply (iterate_reachable demo_domain demo_patterns (serve (fun _ => noisy_page))
           demo_seed 1 (initial demo_seed)).
  - apply reachable_initial.
  - vm_compute. reflexivity.
Defined.

Lemma demo_domain_not_empty : demo_domain <> EmptyString.
Proof. discriminate. Defined.

Lemma visit_attribution_witness :
  demo_seed <> EmptyString /\
  exists es rs,
    errorsFound (snd (process demo_domain demo_patterns (serve (fun _ => noisy_page))
                        demo_seed "START" (initial demo_seed)))
      = errorsFound (initial demo_seed) ++ es /\
    resourceErrors (snd (process demo_domain demo_patterns (serve (fun _ => noisy_page))
                           demo_seed "START" (initial demo_seed)))
      = resourceErrors (initial demo_seed) ++ rs /\
    Forall (fun r => ce_url r = demo_seed) es /\
    Forall (fun r => re_pageUrl r = demo_seed) rs.
Proof.
  assert (H : demo_seed <> EmptyString) by discriminate.
  split; [exact H|].
  exact (visit_attribution demo_domain demo_patterns (serve (fun _ => noisy_page))
           demo_seed "START" (initial demo_seed) H).
Defined.

Lemma records_belong_to_visited_pages_witness :
  demo_domain <> EmptyString /\
  reachable demo_domain demo_patterns (serve (fun _ => noisy_page)) demo_seed noisy_final /\
  Forall (fun r => ce_url r ∈ visited noisy_final) (errorsFound noisy_final) /\
  Forall (fun r => re_pageUrl r ∈ visited noisy_final /\ re_status r = 404%N /\
                   shouldCrawl demo_domain demo_patterns (re_resourceUrl r) = true)
    (resourceErrors noisy_final).
Proof.
  split; [exact demo_domain_not_empty|]. split; [exact noisy_final_reachable|].
  exact (records_belong_to_visited_pages demo_domain demo_patterns
           (serve (fun _ => noisy_page)) demo_seed noisy_final
           demo_domain_not_empty noisy_final_reachable).
Defined.

Lemma broken_links_well_formed_witness :
  reachable demo_domain demo_patterns (serve demo_site) demo_seed demo_final /\
  Forall (fun r => bl_url r ∈ visited demo_final /\
                   urlSources demo_final !! bl_url r = Some (bl_foundOn r) /\
                   forall n, bl_status r = HttpStatus n -> (400 <= n)%N)
    (brokenLinks demo_final) /\
  length (brokenLinks demo_final) <= length (visited demo_final).
Proof.
  split; [exact demo_final_reachable|].
  exact (broken_links_well_formed demo_domain demo_patterns (serve demo_site) demo_seed
           demo_final demo_final_reachable).
Defined.

Lemma sources_loaded_witness :
  reachable demo_domain demo_patterns (serve demo_site) demo_seed demo_final /\
  urlSources demo_final !! demo_c = Some demo_a /\
  ((demo_c = demo_seed /\ demo_a = "START") \/
   (demo_a ∈ visited demo_final /\ demo_a ∉ bl_url <$> brokenLinks demo_final)).
Proof.
  assert (H : urlSources demo_final !! demo_c = Some demo_a) by (vm_compute; reflexivity).
  split; [exact demo_final_reachable|]. split; [exact H|].
  exact (sources_loaded demo_domain demo_patterns (serve demo_site) demo_seed
           demo_final demo_c demo_a demo_final_reachable H).
Defined.

Lemma no_anchor_or_script_links_witness :
  reachable demo_domain demo_patterns (serve demo_site) demo_seed demo_final /\
  (forall e, e ∈ tail (pushed demo_final) ->
     fe_url e <> EmptyString /\ includes (fe_url e) "#" = false /\
     includes (fe_url e) "javascript:" = false) /\
  (forall u, u ∈ visited demo_final ->
     u = demo_seed \/
     (includes u "#" = false /\ includes u "javascript:" = false)).
Proof.
  split; [exact demo_final_reachable|].
  exact (no_anchor_or_script_links demo_domain demo_patterns (serve demo_site) demo_seed
           demo_final demo_final_reachable).
Defined.

Lemma visits_begin_at_start_witness :
  reachable demo_domain demo_patterns (serve demo_site) demo_seed demo_final /\
  (visited demo_final = [] \/ exists l, visited demo_final = demo_seed :: l).
Proof.
  split; [exact demo_final_reachable|].
  exact (visits_begin_at_start demo_domain demo_patterns (serve demo_site) demo_seed
           demo_final demo_final_reachable).
Defined.

Lemma finished_crawl_is_complete_witness :
  loop demo_domain demo_patterns (serve demo_site) 10 (initial demo_seed) = Some demo_final /\
  toVisit demo_final = [] /\
  forall e, e ∈ pushed demo_final ->
    shouldCrawl demo_domain demo_patterns (fe_url e) = true -> fe_url e ∈ visited demo_final.
Proof.
  assert (H : loop demo_domain demo_patterns (serve demo_site) 10 (initial demo_seed)
              = Some demo_final) by (vm_compute; reflexivity).
  split; [exact H|].
  exact (finished_crawl_is_complete demo_domain demo_patterns (serve demo_site) demo_seed
           10 demo_final H).
Defined.

Lemma results_only_grow_witness :
  reachable demo_domain demo_patterns (serve demo_site) demo_seed (initial demo_seed) /\
  iteration demo_domain demo_patterns (serve demo_site) (initial demo_seed) = Some demo_first /\
  visited (initial demo_seed) `prefix_of` visited demo_first /\
  errorsFound (initial demo_seed) `prefix_of` errorsFound demo_first /\
  resourceErrors (initial demo_seed) `prefix_of` resourceErrors demo_first /\
  brokenLinks (initial demo_seed) `prefix_of` brokenLinks demo_first /\
  urlSources (initial demo_seed) ⊆ urlSources demo_first.
Proof.
  assert (H : iteration demo_domain demo_patterns (serve demo_site) (initial demo_seed)
              = Some demo_first) by (vm_compute; reflexivity).
  split; [apply reachable_initial|]. split; [exact H|].
  exact (results_only_grow demo_domain demo_patterns (serve demo_site) demo_seed
           (initial demo_seed) demo_first
           (reachable_initial demo_domain demo_patterns (serve demo_site) demo_seed) H).
Defined.

Lemma demo_site_finite :
  finite_site (shouldCrawl demo_domain demo_patterns) (serve demo_site)
    [demo_seed; demo_a; demo_b; demo_c] 3.
Proof.
  intros fx hrefs. unfold serve. simpl. generalize (last_goto fx EmptyString). intros u.
  unfold demo_site.
  destruct (String.eqb u demo_seed); [|destruct (String.eqb u demo_a);
    [|destruct (String.eqb u demo_b)]];
    simpl; intros [= <-]; (split; [vm_compute; lia|]);
    intros link [_ Hin]%list_elem_of_filter Hscope;
    repeat (apply elem_of_cons in Hin as [->|Hin]);
    try (by apply elem_of_nil in Hin);
    try (vm_compute in Hscope; discriminate Hscope);
    apply list_elem_of_In; simpl; tauto.
Defined.

Lemma crawl_of_finite_site_ends_witness :
  finite_site (shouldCrawl demo_domain demo_patterns) (serve demo_site)
    [demo_seed; demo_a; demo_b; demo_c] 3 /\
  exists c,
    loop demo_domain demo_patterns (serve demo_site)
      (1 + 3 * S (length [demo_seed; demo_a; demo_b; demo_c])) (initial demo_seed) = Some c /\
    toVisit c = [].
Proof.
  split; [exact demo_site_finite|].
  exact (crawl_of_finite_site_ends demo_domain demo_patterns (serve demo_site) demo_seed
           [demo_seed; demo_a; demo_b; demo_c] 3 demo_site_finite).
Defined.

Lemma report_counts_of_crawl_witness :
  reachable demo_domain demo_patterns (serve demo_site) demo_seed demo_final /\
  pagesChecked (rp_summary (make_report (results_of demo_final) demo_seed
                              "2025-10-29T10:50:44.237Z"))
    = length (gotos (effects demo_final)) /\
  pagesChecked (rp_summary (make_report (results_of demo_final) demo_seed
                              "2025-10-29T10:50:44.237Z"))
    = size (rp_urlSources (make_report (results_of demo_final) demo_seed
                             "2025-10-29T10:50:44.237Z")) /\
  brokenLinksFound (rp_summary (make_report (results_of demo_final) demo_seed
                                  "2025-10-29T10:50:44.237Z"))
    <= pagesChecked (rp_summary (make_report (results_of demo_final) demo_seed
                                   "2025-10-29T10:50:44.237Z")).
Proof.
  split; [exact demo_final_reachable|].
  exact (report_counts_of_crawl demo_domain demo_patterns (serve demo_site) demo_seed
           demo_final "2025-10-29T10:50:44.237Z" demo_final_reachable).
Defined.

Lemma report_shows_sources_witness :
  demo_domain <> EmptyString /\
  reachable demo_domain demo_patterns (serve demo_site) demo_seed demo_final /\
  visited demo_final !! 3 = Some demo_c /\
  exists f,
    urlSources demo_final !! demo_c = Some f /\
    visited_page_text (results_of demo_final) 3 demo_c =
      decimal (3 + 1) +:+ ". " +:+ demo_c +:+ newline +:+
      "   Found on: " +:+ f +:+ newline.
Proof.
  assert (H : visited demo_final !! 3 = Some demo_c) by (vm_compute; reflexivity).
  split; [exact demo_domain_not_empty|]. split; [exact demo_final_reachable|].
  split; [exact H|].
  exact (report_shows_sources demo_domain demo_patterns (serve demo_site) demo_seed
           demo_final 3 demo_c demo_domain_not_empty demo_final_reachable H).
Defined.

Example noisy_final_records :
  errorsFound noisy_final =
    [mkConsoleError demo_seed "f is not defined" "t1";
     mkConsoleError demo_seed "PAGE ERROR: boom" "t3"] /\
  resourceErrors noisy_final =
    [mkResourceError "https://x.test/o:proj/logo.png" demo_seed 404 "t4"].
Proof. split; vm_compute; reflexivity. Qed.

Example file_stamp_of_date :
  reportFileName (file_stamp "2025-10-29T10:50:44.237Z") = "report-2025-10-29T10-50-44-237Z.json" /\
  txtFileName (file_stamp "2025-10-29T10:50:44.237Z") = "report-2025-10-29T10-50-44-237Z.txt".
Proof. split; reflexivity. Qed.
